(** * Inline-image escape sequences of the GT terminal scripts

    A shallow embedding of [contrib/load_image.py] and
    [contrib/advanced_image_demo.py]: the base64 payload, the OSC 1337
    sequence builder, the cursor helpers and the demo driver, with the
    process environment (file system, standard streams, standard input and
    the interrupt signal) threaded explicitly through a small state and
    exception monad. *)

From Stdlib Require Import ZArith NArith List String Ascii Bool Lia.
From Stdlib Require Import Strings.Byte Numbers.DecimalString Numbers.DecimalZ.
From Stdlib Require Import Numbers.DecimalPos.
Import ListNotations.

Local Open Scope string_scope.

(* ================================================================== *)
(** * Part I: definitions *)
(* ================================================================== *)

(** ** Base64 ([base64.b64encode], RFC 4648 standard alphabet) *)

Module Base64.

(** [binascii]'s encoding table. *)
Definition table_b2a : string :=
  "ABCDEFGHIJKLMNOPQRSTUVWXYZabcdefghijklmnopqrstuvwxyz0123456789+/".

Definition pad : ascii := "="%char.

(** The character of a six-bit value. *)
Definition b2a (n : N) : ascii :=
  match String.get (N.to_nat n) table_b2a with
  | Some c => c
  | None => pad
  end.

(** The six-bit value of a character, if it is in the alphabet. *)
Definition a2b (c : ascii) : option N :=
  option_map N.of_nat (String.index 0 (String c EmptyString) table_b2a).

(** The four six-bit groups of three octets. *)
Definition sextet1 (b1 : N) : N := N.shiftr b1 2.
Definition sextet2 (b1 b2 : N) : N :=
  N.lor (N.shiftl (N.land b1 3) 4) (N.shiftr b2 4).
Definition sextet3 (b2 b3 : N) : N :=
  N.lor (N.shiftl (N.land b2 15) 2) (N.shiftr b3 6).
Definition sextet4 (b3 : N) : N := N.land b3 63.

(** [b64encode]: three octets give four characters, a final group of
    one or two octets is zero-filled and padded with [=]. *)
Fixpoint b64encode (data : list byte) : string :=
  match data with
  | [] => ""
  | [x1] =>
      let b1 := Byte.to_N x1 in
      String (b2a (sextet1 b1)) (String (b2a (sextet2 b1 0))
        (String pad (String pad "")))
  | [x1; x2] =>
      let b1 := Byte.to_N x1 in
      let b2 := Byte.to_N x2 in
      String (b2a (sextet1 b1)) (String (b2a (sextet2 b1 b2))
        (String (b2a (sextet3 b2 0)) (String pad "")))
  | x1 :: x2 :: x3 :: rest =>
      let b1 := Byte.to_N x1 in
      let b2 := Byte.to_N x2 in
      let b3 := Byte.to_N x3 in
      String (b2a (sextet1 b1)) (String (b2a (sextet2 b1 b2))
        (String (b2a (sextet3 b2 b3)) (String (b2a (sextet4 b3))
          (b64encode rest))))
  end.

(** The three octets of four six-bit groups. *)
Definition octet1 (n1 n2 : N) : N := N.lor (N.shiftl n1 2) (N.shiftr n2 4).
Definition octet2 (n2 n3 : N) : N :=
  N.lor (N.shiftl (N.land n2 15) 4) (N.shiftr n3 2).
Definition octet3 (n3 n4 : N) : N := N.lor (N.shiftl (N.land n3 3) 6) n4.

Definition decode_pair (c1 c2 : ascii) : option (list byte) :=
  match a2b c1, a2b c2 with
  | Some n1, Some n2 =>
      match Byte.of_N (octet1 n1 n2) with
      | Some x1 => Some [x1]
      | None => None
      end
  | _, _ => None
  end.

Definition decode_triple (c1 c2 c3 : ascii) : option (list byte) :=
  match a2b c1, a2b c2, a2b c3 with
  | Some n1, Some n2, Some n3 =>
      match Byte.of_N (octet1 n1 n2), Byte.of_N (octet2 n2 n3) with
      | Some x1, Some x2 => Some [x1; x2]
      | _, _ => None
      end
  | _, _, _ => None
  end.

Definition decode_quad (c1 c2 c3 c4 : ascii) : option (list byte) :=
  match a2b c1, a2b c2, a2b c3, a2b c4 with
  | Some n1, Some n2, Some n3, Some n4 =>
      match Byte.of_N (octet1 n1 n2), Byte.of_N (octet2 n2 n3),
            Byte.of_N (octet3 n3 n4) with
      | Some x1, Some x2, Some x3 => Some [x1; x2; x3]
      | _, _, _ => None
      end
  | _, _, _, _ => None
  end.

(** The decoder the round-trip property speaks of: the strict RFC 4648
    decoder (the scripts themselves only encode).  Input is consumed
    four characters at a time; padding is accepted in the last group
    only; a character outside the alphabet is an error. *)
Fixpoint b64decode (s : string) : option (list byte) :=
  match s with
  | "" => Some []
  | String c1 (String c2 (String c3 (String c4 rest))) =>
      if Ascii.eqb c4 pad && String.eqb rest "" then
        if Ascii.eqb c3 pad then decode_pair c1 c2
        else decode_triple c1 c2 c3
      else
        match decode_quad c1 c2 c3 c4, b64decode rest with
        | Some q, Some r => Some (q ++ r)%list
        | _, _ => None
        end
  | _ => None
  end.

(** Finite ranges, for the checks by enumeration below. *)
Definition below (n : nat) : list N := map N.of_nat (seq 0 n).

Definition all_below (n : nat) (P : N -> bool) : bool := forallb P (below n).

Definition all_below2 (n : nat) (P : N -> N -> bool) : bool :=
  all_below n (fun a => all_below n (P a)).

Definition chk_alphabet (k : N) : bool :=
  match a2b (b2a k) with
  | Some m => N.eqb m k
  | None => false
  end && negb (Ascii.eqb (b2a k) pad).

Definition chk_octet (a : N) : bool :=
  N.ltb (sextet1 a) 64 && N.ltb (sextet4 a) 64
  && N.eqb (N.lor (N.shiftl (N.shiftr a 4) 4) (N.land a 15)) a.

Definition chk_octets (a b : N) : bool :=
  N.ltb (sextet2 a b) 64 && N.ltb (sextet3 a b) 64
  && N.eqb (octet1 (sextet1 a) (sextet2 a b)) a
  && N.eqb (N.land (sextet2 a b) 15) (N.shiftr b 4)
  && N.eqb (N.shiftr (sextet3 a b) 2) (N.land a 15)
  && N.eqb (octet3 (sextet3 a b) (sextet4 b)) b.

End Base64.

(** ** The process environment *)

(** A path names a regular file (readable or not, with its contents), a
    directory (with the names [os.scandir] lists, in that order), a
    special file that [open] can read (a character device such as
    [/dev/null], or a FIFO; with the bytes a read yields up to its end) or
    nothing.  A listed name need not resolve: it may be a broken link or
    have been removed since. *)
Inductive node : Type :=
| File (readable : bool) (data : list byte)
| Dir (entries : list string)
| Special (data : list byte).

Definition filesystem : Type := string -> option node.

(** The exceptions the two scripts can meet.  [SystemExit] and
    [KeyboardInterrupt] derive from [BaseException] only. *)
Inductive exn : Type :=
| SystemExit (code : Z)
| KeyboardInterrupt
| FileNotFoundError (path : string)
| IsADirectoryError (path : string)
| PermissionError (path : string)
| EOFError.

Definition is_Exception (e : exn) : bool :=
  match e with
  | SystemExit _ | KeyboardInterrupt => false
  | _ => true
  end.

Definition is_KeyboardInterrupt (e : exn) : bool :=
  match e with
  | KeyboardInterrupt => true
  | _ => false
  end.

(** [str(e)]; a path is shown between single quotes, as [repr] does for a
    path without quotes or escapes. *)
Definition str_exn (e : exn) : string :=
  match e with
  | SystemExit c => NilZero.string_of_int (Z.to_int c)
  | KeyboardInterrupt => ""
  | FileNotFoundError p => "[Errno 2] No such file or directory: '" ++ p ++ "'"
  | IsADirectoryError p => "[Errno 21] Is a directory: '" ++ p ++ "'"
  | PermissionError p => "[Errno 13] Permission denied: '" ++ p ++ "'"
  | EOFError => "EOF when reading a line"
  end.

(** Standard output is buffered: [out_pending] is written but not yet
    flushed.  [sigint] is the number of primitive operations still to run
    before a pending interrupt signal is delivered, if one is pending.
    [clock] sums the requested sleeps, in milliseconds. *)
Record world : Type := mkWorld {
  fs : filesystem;
  stdin : list string;
  out_flushed : string;
  out_pending : string;
  err : string;
  sigint : option nat;
  clock : N
}.

Definition stdout_all (w : world) : string := out_flushed w ++ out_pending w.

Definition set_sigint (s : option nat) (w : world) : world :=
  mkWorld (fs w) (stdin w) (out_flushed w) (out_pending w) (err w) s (clock w).

Definition set_stdin (l : list string) (w : world) : world :=
  mkWorld (fs w) l (out_flushed w) (out_pending w) (err w) (sigint w) (clock w).

Definition set_stdout (flushed pending : string) (w : world) : world :=
  mkWorld (fs w) (stdin w) flushed pending (err w) (sigint w) (clock w).

Definition set_err (e : string) (w : world) : world :=
  mkWorld (fs w) (stdin w) (out_flushed w) (out_pending w) e (sigint w)
          (clock w).

Definition set_clock (c : N) (w : world) : world :=
  mkWorld (fs w) (stdin w) (out_flushed w) (out_pending w) (err w) (sigint w) c.

(** ** The monad: state passing with exceptions *)

Inductive outcome (A : Type) : Type :=
| Ok (a : A)
| Raise (e : exn).

Arguments Ok {A} a.
Arguments Raise {A} e.

Definition M (A : Type) : Type := world -> outcome A * world.

Definition ret {A} (a : A) : M A := fun w => (Ok a, w).

Definition bind {A B} (m : M A) (k : A -> M B) : M B :=
  fun w =>
    match m w with
    | (Ok a, w') => k a w'
    | (Raise e, w') => (Raise e, w')
    end.

Definition raise {A} (e : exn) : M A := fun w => (Raise e, w).

(** [try: body / except <handles>: handler]. *)
Definition try_except {A} (body : M A) (handles : exn -> bool)
           (handler : exn -> M A) : M A :=
  fun w =>
    match body w with
    | (Ok a, w') => (Ok a, w')
    | (Raise e, w') => if handles e then handler e w' else (Raise e, w')
    end.

Declare Scope io_scope.
Delimit Scope io_scope with io.
Notation "x <- m ;; k" := (bind m (fun x => k))
  (at level 100, m at next level, right associativity) : io_scope.
Notation "m ;; k" := (bind m (fun _ => k))
  (at level 100, right associativity) : io_scope.
Local Open Scope io_scope.

(** [for x in l: body x]. *)
Fixpoint for_each {A} (l : list A) (body : A -> M unit) : M unit :=
  match l with
  | [] => ret tt
  | x :: l' => body x ;; for_each l' body
  end.

(** [range(n)]. *)
Definition range (n : nat) : list Z := map Z.of_nat (seq 0 n).

(** ** Primitive operations

    An interrupt signal is noticed when a primitive operation is called;
    the operation then raises [KeyboardInterrupt] and has no effect. *)

Definition tick : M unit :=
  fun w =>
    match sigint w with
    | None => (Ok tt, w)
    | Some O => (Raise KeyboardInterrupt, set_sigint None w)
    | Some (S k) => (Ok tt, set_sigint (Some k) w)
    end.

(** [sys.stdout.write(s)]. *)
Definition stdout_write (s : string) : M unit :=
  tick ;; fun w => (Ok tt, set_stdout (out_flushed w) (out_pending w ++ s) w).

(** [sys.stdout.flush()]. *)
Definition stdout_flush : M unit :=
  tick ;; fun w => (Ok tt, set_stdout (out_flushed w ++ out_pending w) "" w).

Definition LF : string := String "010"%char "".
Definition ESC : string := String "027"%char "".
Definition BEL : string := String "007"%char "".

(** [print(s)]. *)
Definition print (s : string) : M unit := stdout_write (s ++ LF).

(** [print(s, file=sys.stderr)]. *)
Definition eprint (s : string) : M unit :=
  tick ;; fun w => (Ok tt, set_err (err w ++ s ++ LF) w).

(** The path resolves to a regular file. *)
Definition regular (f : filesystem) (path : string) : bool :=
  match f path with
  | Some (File _ _) => true
  | _ => false
  end.

(** [os.path.isfile(path)]. *)
Definition isfile (path : string) : M bool :=
  tick ;; fun w => (Ok (regular (fs w) path), w).

(** [Path.is_dir()]. *)
Definition is_dir (path : string) : M bool :=
  tick ;; fun w =>
    (Ok match fs w path with
        | Some (Dir _) => true
        | _ => false
        end, w).

(** [with open(path, "rb") as f: f.read()]. *)
Definition read_bytes (path : string) : M (list byte) :=
  tick ;; fun w =>
    match fs w path with
    | None => (Raise (FileNotFoundError path), w)
    | Some (Dir _) => (Raise (IsADirectoryError path), w)
    | Some (File false _) => (Raise (PermissionError path), w)
    | Some (File true data) => (Ok data, w)
    | Some (Special data) => (Ok data, w)
    end.

(** [sys.exit(code)]. *)
Definition sys_exit {A} (code : Z) : M A := raise (SystemExit code).

(** [time.sleep], the duration in milliseconds. *)
Definition sleep (ms : N) : M unit :=
  tick ;; fun w => (Ok tt, set_clock (clock w + ms)%N w).

(** [input()]: flushes standard output and reads a line. *)
Definition input : M string :=
  tick ;; fun w =>
    let w1 := set_stdout (out_flushed w ++ out_pending w) "" w in
    match stdin w with
    | [] => (Raise EOFError, w1)
    | l :: ls => (Ok l, set_stdin ls w1)
    end.

(** The name ends with the extension: the match of the pattern [*ext]. *)
Definition ends_with (ext name : string) : bool :=
  let n := String.length name in
  let e := String.length ext in
  Nat.leb e n && String.eqb (String.substring (n - e) e name) ext.

(** [str(dir / name)] for a normalised [dir]. *)
Definition path_join (dir name : string) : string :=
  if String.eqb dir "." then name
  else if ends_with "/" dir then dir ++ name
  else dir ++ "/" ++ name.

(** [list(dir.glob("*" + ext))]. *)
Definition glob (dir ext : string) : M (list string) :=
  tick ;; fun w =>
    (Ok match fs w dir with
        | Some (Dir names) => map (path_join dir) (filter (ends_with ext) names)
        | _ => []
        end, w).

(** [str] of an [int]. *)
Definition str_int (z : Z) : string := NilZero.string_of_int (Z.to_int z).

(** The reading back of a decimal numeral. *)
Definition int_of_str (s : string) : option Z :=
  option_map Z.of_int (NilZero.int_of_string s).

(** ** What a run of a script leaves behind *)

Record process : Type := mkProcess {
  exit_code : Z;
  stdout : string;
  stderr : string;
  uncaught : option exn
}.

(** Running a script to its end.  [stderr] is what the script itself wrote
    to standard error; [uncaught] is the exception the interpreter reports
    there with a traceback, if the script ended on one.  An uncaught
    [SystemExit] is no error report and gives its code; an interrupt ends
    the process as the signal does (130 for a shell); standard output is
    flushed at exit. *)
Definition run_script (script : M unit) (w : world) : process :=
  match script w with
  | (Ok _, w') => mkProcess 0 (stdout_all w') (err w') None
  | (Raise (SystemExit c), w') => mkProcess c (stdout_all w') (err w') None
  | (Raise KeyboardInterrupt, w') =>
      mkProcess 130 (stdout_all w') (err w') (Some KeyboardInterrupt)
  | (Raise e, w') => mkProcess 1 (stdout_all w') (err w') (Some e)
  end.

(** A fresh process: nothing written yet. *)
Definition initial_world (f : filesystem) (lines : list string)
           (s : option nat) : world :=
  mkWorld f lines "" "" "" s 0.

(** ** [contrib/load_image.py] *)

(** The module body, given [sys.argv]. *)
Definition load_image (argv : list string) : M unit :=
  (if Nat.ltb (List.length argv) 2 then
     print "Usage: python im.py <image_path>" ;;
     sys_exit 1
   else ret tt) ;;
  let filename := nth 1 argv "" in
  data <- read_bytes filename ;;
  let b64data := Base64.b64encode data in
  print (ESC ++ "]1337;File=inline=1:" ++ b64data ++ BEL) ;;
  stdout_flush.

(** ** [contrib/advanced_image_demo.py] *)

(** The options dictionary, in insertion order; a [dict] has no key twice. *)
Definition options : Type := list (string * string).

Definition dict_wf (o : options) : Prop := NoDup (map fst o).

(** [f"{key}={value}"]. *)
Definition option_token (kv : string * string) : string :=
  fst kv ++ "=" ++ snd kv.

(** [opts = ["inline=1"]], then one [append] for each item. *)
Definition build_opts (o : options) : list string :=
  fold_left (fun opts kv => (opts ++ [option_token kv])%list) o ["inline=1"].

(** [f"\033]1337;File={';'.join(opts)}:{image_data}\a"]. *)
Definition image_sequence (opts : list string) (image_data : string) : string :=
  ESC ++ "]1337;File=" ++ String.concat ";" opts ++ ":" ++ image_data ++ BEL.

Definition display_image (path : string) (o : options) : M unit :=
  found <- isfile path ;;
  if negb found then
    eprint ("Error: Image file not found: " ++ path)
  else
    data <- read_bytes path ;;
    let image_data := Base64.b64encode data in
    let opts := build_opts o in
    stdout_write (image_sequence opts image_data) ;;
    stdout_flush.

Definition clear_screen : M unit :=
  stdout_write (ESC ++ "[2J" ++ ESC ++ "[H") ;;
  stdout_flush.

Definition cursor_sequence (row col : Z) : string :=
  ESC ++ "[" ++ str_int row ++ ";" ++ str_int col ++ "H".

Definition move_cursor (row col : Z) : M unit :=
  stdout_write (cursor_sequence row col) ;;
  stdout_flush.

(** [s * n]. *)
Fixpoint str_mul (s : string) (n : nat) : string :=
  match n with
  | O => ""
  | S n' => s ++ str_mul s n'
  end.

(** [next(image_dir.glob("*.jpg"), None) or next(image_dir.glob("*.png"), None)]:
    a [Path] is always true. *)
Definition find_sample (image_dir : string) : M (option string) :=
  jpgs <- glob image_dir ".jpg" ;;
  match jpgs with
  | j :: _ => ret (Some j)
  | [] => pngs <- glob image_dir ".png" ;; ret (hd_error pngs)
  end.

(** [list(image_dir.glob("*.jpg")) + list(image_dir.glob("*.png"))]. *)
Definition find_images (image_dir : string) : M (list string) :=
  jpgs <- glob image_dir ".jpg" ;;
  pngs <- glob image_dir ".png" ;;
  ret (jpgs ++ pngs)%list.

Definition demo_basic (image_dir : string) : M unit :=
  clear_screen ;;
  print "GT Terminal Advanced Image Demo - Basic Display" ;;
  print "==============================================" ;;
  print "" ;;
  sample_img <- find_sample image_dir ;;
  match sample_img with
  | None => print "No sample images found in the directory."
  | Some img =>
      print "1. Default size (auto):" ;;
      display_image img [] ;;
      print (str_mul LF 8) ;;
      print "2. Fixed width (400px):" ;;
      display_image img [("width", "400px")] ;;
      print (str_mul LF 8) ;;
      print "3. Fixed height (200px):" ;;
      display_image img [("height", "200px")] ;;
      print (str_mul LF 8) ;;
      print "4. Percentage width (50%):" ;;
      display_image img [("width", "50%")] ;;
      print (str_mul LF 8) ;;
      print "Press Enter to continue..." ;;
      _ <- input ;;
      ret tt
  end.

Definition demo_alignment (image_dir : string) : M unit :=
  clear_screen ;;
  print "GT Terminal Advanced Image Demo - Alignment" ;;
  print "=========================================" ;;
  print "" ;;
  sample_img <- find_sample image_dir ;;
  match sample_img with
  | None => print "No sample images found in the directory."
  | Some img =>
      print "1. Left alignment (default):" ;;
      display_image img [("width", "200px"); ("align", "left")] ;;
      print (str_mul LF 5) ;;
      print "2. Center alignment:" ;;
      display_image img [("width", "200px"); ("align", "center")] ;;
      print (str_mul LF 5) ;;
      print "3. Right alignment:" ;;
      display_image img [("width", "200px"); ("align", "right")] ;;
      print (str_mul LF 5) ;;
      print "Press Enter to continue..." ;;
      _ <- input ;;
      ret tt
  end.

Definition demo_z_index (image_dir : string) : M unit :=
  clear_screen ;;
  print "GT Terminal Advanced Image Demo - Z-index Layering" ;;
  print "================================================" ;;
  print "" ;;
  images <- find_images image_dir ;;
  match images with
  | img1 :: img2 :: _ =>
      print "Displaying overlapping images with different z-index values:" ;;
      print "(Notice how they stack on top of each other)" ;;
      print "" ;;
      move_cursor 6 5 ;;
      display_image img1
        [("width", "40%"); ("z-index", "1"); ("name", "back_image")] ;;
      sleep 500 ;;
      move_cursor 8 15 ;;
      display_image img2
        [("width", "40%"); ("z-index", "2"); ("name", "front_image")] ;;
      move_cursor 15 1 ;;
      print "Second image (z-index=2) appears on top of the first image (z-index=1)" ;;
      print "" ;;
      print "Press Enter to continue..." ;;
      _ <- input ;;
      ret tt
  | _ => print "Need at least 2 images for the z-index demo."
  end.

(** The bouncing pattern of the animation. *)
Definition anim_row (i : Z) : Z := 7 + Z.abs (i mod 20 - 10).
Definition anim_col (i : Z) : Z := 10 + i mod 40.

Definition background_options : options :=
  [("width", "80%"); ("height", "80%"); ("align", "center");
   ("z-index", "1"); ("name", "background"); ("persistent", "1")].

Definition frame_options : options :=
  [("width", "100px"); ("height", "100px"); ("z-index", "2");
   ("name", "animation_frame")].

(** One turn of the animation loop. *)
Definition animation_frame (img : string) (i : Z) : M unit :=
  let row := anim_row i in
  let col := anim_col i in
  move_cursor row col ;;
  display_image img frame_options ;;
  sleep 100.

(** [for i in range(100): ...]. *)
Definition animation_loop (img : string) : M unit :=
  for_each (range 100) (animation_frame img).

(** The persistent background, drawn before the loop. *)
Definition animation_setup (img : string) : M unit :=
  move_cursor 5 1 ;;
  display_image img background_options.

(** The body of the [try] statement. *)
Definition animation_body (img : string) : M unit :=
  animation_setup img ;;
  animation_loop img.

(** The [try] statement with its [except KeyboardInterrupt] clause. *)
Definition animation_guarded (img : string) : M unit :=
  try_except (animation_body img) is_KeyboardInterrupt
    (fun _ => print (LF ++ "Animation stopped.")).

(** What follows the [try] statement. *)
Definition animation_tail : M unit :=
  move_cursor 25 1 ;;
  print "Press Enter to continue..." ;;
  _ <- input ;;
  ret tt.

Definition demo_animation (image_dir : string) : M unit :=
  clear_screen ;;
  print "GT Terminal Advanced Image Demo - Animation" ;;
  print "=========================================" ;;
  print "Press Ctrl+C to stop the animation" ;;
  print "" ;;
  sample_img <- find_sample image_dir ;;
  match sample_img with
  | None => print "No sample images found in the directory."
  | Some img =>
      animation_guarded img ;;
      animation_tail
  end.

(** The phases of [main], the body of its [try] statement. *)
Definition demo_phases (image_dir : string) : M unit :=
  demo_basic image_dir ;;
  demo_alignment image_dir ;;
  demo_z_index image_dir ;;
  demo_animation image_dir ;;
  clear_screen ;;
  print "GT Terminal Advanced Image Demo - Complete" ;;
  print "========================================" ;;
  print "Thank you for trying the advanced image features!".

(** [main], given [str(Path(args.image_dir))]: the command line is parsed
    by [argparse], which is not part of the scripts. *)
Definition main (image_dir : string) : M unit :=
  d <- is_dir image_dir ;;
  (if negb d then
     eprint ("Error: Image directory not found: " ++ image_dir) ;;
     sys_exit 1
   else ret tt) ;;
  images <- find_images image_dir ;;
  let image_count := List.length images in
  (if Nat.eqb image_count 0 then
     eprint ("Error: No JPG or PNG images found in " ++ image_dir) ;;
     sys_exit 1
   else ret tt) ;;
  print ("Found " ++ str_int (Z.of_nat image_count) ++ " images in "
         ++ image_dir) ;;
  try_except (demo_phases image_dir) is_Exception
    (fun e => eprint ("Demo error: " ++ str_exn e) ;; sys_exit 1).

(** ** Vocabulary of the statements *)

(** [p] is an initial segment of [s]. *)
Definition is_prefix (p s : string) : Prop := exists rest, s = p ++ rest.

(** The character occurs in the string. *)
Fixpoint has_char (c : ascii) (s : string) : bool :=
  match s with
  | "" => false
  | String c' s' => Ascii.eqb c c' || has_char c s'
  end.

(** The text occurs in what the process wrote to standard error. *)
Definition on_stderr (msg : string) (p : process) : Prop :=
  exists pre post, stderr p = pre ++ msg ++ post.

(** No interrupt signal is pending. *)
Definition quiet (w : world) : Prop := sigint w = None.

(** ** Interruptible runs *)

(** [steps f m cost full a]: on the file system [f], [m] performs [cost]
    primitive operations, writes [full] to standard output and returns
    [a], unless an interrupt is delivered before the last of them; it then
    raises [KeyboardInterrupt] having written an initial segment of [full].
    The file system and standard input are left alone. *)
Definition steps {A} (f : filesystem) (m : M A) (cost : nat) (full : string)
           (a : A) : Prop :=
  forall w, fs w = f ->
    exists w' p,
      fs w' = f /\ stdin w' = stdin w
      /\ stdout_all w' = stdout_all w ++ p
      /\ match sigint w with
         | None => m w = (Ok a, w') /\ sigint w' = None /\ p = full
         | Some k =>
             if Nat.ltb k cost
             then m w = (Raise KeyboardInterrupt, w') /\ sigint w' = None
                  /\ is_prefix p full
             else m w = (Ok a, w') /\ sigint w' = Some (k - cost)%nat
                  /\ p = full
         end.

(** The image can be shown or is reported missing: it is not a file that
    cannot be read. *)
Definition displayable (f : filesystem) (path : string) : Prop :=
  forall data, f path <> Some (File false data).

(** The primitive operations of one [display_image]. *)
Definition display_cost (f : filesystem) (path : string) : nat :=
  if regular f path then 4 else 2.

(** What one [display_image] writes to standard output. *)
Definition display_text (f : filesystem) (path : string) (o : options)
  : string :=
  match f path with
  | Some (File true data) =>
      image_sequence (build_opts o) (Base64.b64encode data)
  | _ => ""
  end.

(** What turn [i] of the animation loop writes. *)
Definition frame_text (f : filesystem) (img : string) (i : Z) : string :=
  cursor_sequence (anim_row i) (anim_col i) ++ display_text f img frame_options.

Definition frames_text (f : filesystem) (img : string) (l : list Z) : string :=
  fold_right append "" (map (frame_text f img) l).

Definition frame_cost (f : filesystem) (img : string) : nat :=
  2 + display_cost f img + 1.

Definition setup_cost (f : filesystem) (img : string) : nat :=
  2 + display_cost f img.

Definition setup_text (f : filesystem) (img : string) : string :=
  cursor_sequence 5 1 ++ display_text f img background_options.

(** ** Sample inputs *)

(** The octets [0x00] to [0x09]. *)
Definition ten_bytes : list byte :=
  [x00; x01; x02; x03; x04; x05; x06; x07; x08; x09].

(** A directory [imgs] with one readable image [a.jpg], a text file, and an
    entry [c.png] that does not resolve; a ten-octet file [img.bin]; a
    directory [empty] without any image. *)
Definition sample_fs : filesystem :=
  fun p =>
    if String.eqb p "img.bin" then Some (File true ten_bytes)
    else if String.eqb p "imgs" then Some (Dir ["a.jpg"; "b.txt"; "c.png"])
    else if String.eqb p "imgs/a.jpg" then Some (File true ten_bytes)
    else if String.eqb p "imgs/b.txt" then Some (File true [])
    else if String.eqb p "empty" then Some (Dir ["notes.txt"])
    else None.

(** ** Vocabulary of the further properties *)

(** Every character of the string satisfies the test. *)
Fixpoint all_chars (P : ascii -> bool) (s : string) : bool :=
  match s with
  | "" => true
  | String c s' => P c && all_chars P s'
  end.

(** The padding [b64encode] ends with, by the number of octets encoded. *)
Definition b64_padding (n : nat) : string :=
  match (n mod 3)%nat with
  | 0%nat => ""
  | 1%nat => "=="
  | _ => "="
  end.

(** [s] is a final segment of [t]. *)
Definition is_suffix (s t : string) : Prop := exists pre, t = pre ++ s.

(** The value of [list(dir.glob("*" + ext))] on a file system. *)
Definition glob_list (f : filesystem) (dir ext : string) : list string :=
  match f dir with
  | Some (Dir names) => map (path_join dir) (filter (ends_with ext) names)
  | _ => []
  end.

(** The value of [find_images]: the [*.jpg] entries, then the [*.png] ones. *)
Definition images_of (f : filesystem) (dir : string) : list string :=
  (glob_list f dir ".jpg" ++ glob_list f dir ".png")%list.

(** The value of [find_sample]. *)
Definition sample_of (f : filesystem) (dir : string) : option string :=
  match glob_list f dir ".jpg" with
  | j :: _ => Some j
  | [] => hd_error (glob_list f dir ".png")
  end.

(** What one [display_image] writes to standard error. *)
Definition display_err (f : filesystem) (path : string) : string :=
  if regular f path then ""
  else "Error: Image file not found: " ++ path ++ LF.

(** [runs f m i i' out e c r]: started on the file system [f] with the lines
    [i] on standard input and no interrupt pending, [m] ends with the
    outcome [r], leaves the lines [i'] unread, has written [out] to standard
    output and [e] to standard error, and has slept [c] milliseconds. *)
Definition runs {A} (f : filesystem) (m : M A) (i i' : list string)
           (out e : string) (c : N) (r : outcome A) : Prop :=
  forall w, fs w = f -> quiet w -> stdin w = i ->
    exists w',
      m w = (r, w') /\ fs w' = f /\ quiet w' /\ stdin w' = i'
      /\ stdout_all w' = stdout_all w ++ out
      /\ err w' = err w ++ e
      /\ clock w' = (clock w + c)%N.

(** How [input()] ends on the lines left: [EOFError] when there is none. *)
Definition wait_outcome (i : list string) : outcome unit :=
  match i with
  | [] => Raise EOFError
  | _ :: _ => Ok tt
  end.

(** [msg] is somewhere in [s]. *)
Definition occurs (msg s : string) : Prop :=
  exists pre post, s = pre ++ msg ++ post.

(** The computation writes the message as its last line and returns,
    without reading a line, writing to standard error or sleeping. *)
Definition says_and_returns (m : M unit) (msg : string) (w : world) : Prop :=
  exists w',
    m w = (Ok tt, w') /\ stdin w' = stdin w /\ err w' = err w
    /\ clock w' = clock w /\ is_suffix (msg ++ LF) (stdout_all w').

(** A path of printable ASCII characters without quote or backslash, which
    [repr] shows unchanged between single quotes. *)
Definition plain_path (p : string) : bool :=
  all_chars (fun c => Nat.leb 32 (nat_of_ascii c)
                      && Nat.ltb (nat_of_ascii c) 127
                      && negb (Ascii.eqb c "'")
                      && negb (Ascii.eqb c "\")) p.

(** No key holds [=], and no key or value holds [;] or [:]. *)
Definition clean_options (o : options) : bool :=
  forallb (fun kv => negb (has_char "=" (fst kv))
                     && negb (has_char ";" (option_token kv))
                     && negb (has_char ":" (option_token kv))) o.

(** The closing banner of [main]. *)
Definition complete_text : string :=
  ESC ++ "[2J" ++ ESC ++ "[H"
  ++ "GT Terminal Advanced Image Demo - Complete" ++ LF
  ++ "========================================" ++ LF
  ++ "Thank you for trying the advanced image features!" ++ LF.


(** A directory [solo] with a single readable image, and a directory
    [locked] whose only image cannot be read. *)
Definition other_fs : filesystem :=
  fun p =>
    if String.eqb p "solo" then Some (Dir ["a.png"])
    else if String.eqb p "solo/a.png" then Some (File true ten_bytes)
    else if String.eqb p "locked" then Some (Dir ["x.jpg"])
    else if String.eqb p "locked/x.jpg" then Some (File false ten_bytes)
    else None.

(* ================================================================== *)
(** * Part II: properties *)
(* ================================================================== *)

(** ** Strings *)

(** The escape, bell and line feed characters: [\x1b] (also written
    [\033]), [\a] and [\n]. *)
Example control_characters :
  map list_byte_of_string [ESC; BEL; LF] = [[x1b]; [x07]; [x0a]].
Proof. reflexivity. Qed.

Lemma append_nil_r (s : string) : s ++ "" = s.
Proof. induction s; cbn; congruence. Qed.

Lemma append_assoc (a b c : string) : (a ++ b) ++ c = a ++ (b ++ c).
Proof. induction a; cbn; congruence. Qed.

Lemma has_char_append (c : ascii) (a b : string) :
  has_char c (a ++ b) = has_char c a || has_char c b.
Proof.
  induction a as [|x a IH]; cbn; [reflexivity|].
  rewrite IH. now rewrite orb_assoc.
Qed.

Lemma is_prefix_refl (s : string) : is_prefix s s.
Proof. exists "". now rewrite append_nil_r. Qed.

Lemma is_prefix_nil (s : string) : is_prefix "" s.
Proof. now exists s. Qed.

Lemma is_prefix_app_r (p s t : string) : is_prefix p s -> is_prefix p (s ++ t).
Proof. intros [r ->]. exists (r ++ t). apply append_assoc. Qed.

Lemma is_prefix_app_l (a p s : string) :
  is_prefix p s -> is_prefix (a ++ p) (a ++ s).
Proof. intros [r ->]. exists r. now rewrite append_assoc. Qed.

Module Base64Facts.
Import Base64.

Lemma in_below (n : nat) (k : N) : (k < N.of_nat n)%N -> In k (below n).
Proof.
  intros H. unfold below.
  rewrite <- (N2Nat.id k). apply in_map. apply in_seq. lia.
Qed.

Lemma all_below_spec (n : nat) (P : N -> bool) :
  all_below n P = true -> forall k, (k < N.of_nat n)%N -> P k = true.
Proof.
  unfold all_below. rewrite forallb_forall.
  intros H k Hk. apply H, in_below, Hk.
Qed.

Lemma all_below2_spec (n : nat) (P : N -> N -> bool) :
  all_below2 n P = true ->
  forall a b, (a < N.of_nat n)%N -> (b < N.of_nat n)%N -> P a b = true.
Proof.
  intros H a b Ha Hb.
  apply (all_below_spec n (P a)); [|exact Hb].
  apply (all_below_spec n (fun a => all_below n (P a))); assumption.
Qed.

Lemma chk_alphabet_all : all_below 64 chk_alphabet = true.
Proof. vm_compute. reflexivity. Qed.

Lemma chk_octet_all : all_below 256 chk_octet = true.
Proof. vm_compute. reflexivity. Qed.

Lemma chk_octets_all : all_below2 256 chk_octets = true.
Proof. vm_compute. reflexivity. Qed.

(** The alphabet is injective on six-bit values and never yields the
    padding character. *)
Lemma a2b_b2a (n : N) : (n < 64)%N -> a2b (b2a n) = Some n.
Proof.
  intros H. pose proof (all_below_spec 64 _ chk_alphabet_all n H) as E.
  unfold chk_alphabet in E. apply andb_true_iff in E as [E _].
  destruct (a2b (b2a n)) as [m|]; [|discriminate].
  apply N.eqb_eq in E. now subst.
Qed.

Lemma b2a_not_pad (n : N) : (n < 64)%N -> Ascii.eqb (b2a n) pad = false.
Proof.
  intros H. pose proof (all_below_spec 64 _ chk_alphabet_all n H) as E.
  unfold chk_alphabet in E. apply andb_true_iff in E as [_ E].
  now apply negb_true_iff in E.
Qed.

Ltac split_chk E :=
  repeat match type of E with
         | (_ && _)%bool = true =>
             let E' := fresh "E" in apply andb_true_iff in E as [E E']
         end;
  repeat match goal with
         | H : N.eqb _ _ = true |- _ => apply N.eqb_eq in H
         | H : N.ltb _ _ = true |- _ => apply N.ltb_lt in H
         end.

Section Octets.
Variables b1 b2 b3 : N.
Hypothesis H1 : (b1 < 256)%N.
Hypothesis H2 : (b2 < 256)%N.
Hypothesis H3 : (b3 < 256)%N.

Lemma sextet1_lt : (sextet1 b1 < 64)%N.
Proof.
  pose proof (all_below_spec 256 _ chk_octet_all b1 H1) as E.
  unfold chk_octet in E. split_chk E. assumption.
Qed.

Lemma sextet4_lt : (sextet4 b3 < 64)%N.
Proof.
  pose proof (all_below_spec 256 _ chk_octet_all b3 H3) as E.
  unfold chk_octet in E. split_chk E. assumption.
Qed.

Lemma sextet2_lt : (sextet2 b1 b2 < 64)%N.
Proof.
  pose proof (all_below2_spec 256 _ chk_octets_all b1 b2 H1 H2) as E.
  unfold chk_octets in E. split_chk E. assumption.
Qed.

Lemma sextet3_lt : (sextet3 b2 b3 < 64)%N.
Proof.
  pose proof (all_below2_spec 256 _ chk_octets_all b2 b3 H2 H3) as E.
  unfold chk_octets in E. split_chk E. assumption.
Qed.

Lemma octet1_sextets : octet1 (sextet1 b1) (sextet2 b1 b2) = b1.
Proof.
  pose proof (all_below2_spec 256 _ chk_octets_all b1 b2 H1 H2) as E.
  unfold chk_octets in E. split_chk E. assumption.
Qed.

Lemma octet2_sextets : octet2 (sextet2 b1 b2) (sextet3 b2 b3) = b2.
Proof.
  pose proof (all_below2_spec 256 _ chk_octets_all b1 b2 H1 H2) as E.
  pose proof (all_below2_spec 256 _ chk_octets_all b2 b3 H2 H3) as F.
  pose proof (all_below_spec 256 _ chk_octet_all b2 H2) as G.
  unfold chk_octets in E, F. unfold chk_octet in G.
  split_chk E. split_chk F. split_chk G.
  unfold octet2. congruence.
Qed.

Lemma octet3_sextets : octet3 (sextet3 b2 b3) (sextet4 b3) = b3.
Proof.
  pose proof (all_below2_spec 256 _ chk_octets_all b2 b3 H2 H3) as E.
  unfold chk_octets in E. split_chk E. assumption.
Qed.
End Octets.

Lemma to_N_lt (x : byte) : (Byte.to_N x < 256)%N.
Proof. pose proof (Byte.to_N_bounded x). lia. Qed.

Create HintDb b64.
#[local] Hint Resolve to_N_lt sextet1_lt sextet2_lt sextet3_lt sextet4_lt
  : b64.

Lemma decode_pair_encode (x1 : byte) :
  let b1 := Byte.to_N x1 in
  decode_pair (b2a (sextet1 b1)) (b2a (sextet2 b1 0)) = Some [x1].
Proof.
  intros b1. unfold decode_pair.
  rewrite (a2b_b2a (sextet1 b1)) by (subst b1; auto with b64).
  rewrite (a2b_b2a (sextet2 b1 0))
    by (subst b1; apply sextet2_lt; auto with b64; reflexivity).
  rewrite octet1_sextets by (subst b1; auto with b64; reflexivity).
  subst b1. now rewrite Byte.of_to_N.
Qed.

Lemma decode_triple_encode (x1 x2 : byte) :
  let b1 := Byte.to_N x1 in
  let b2 := Byte.to_N x2 in
  decode_triple (b2a (sextet1 b1)) (b2a (sextet2 b1 b2))
                (b2a (sextet3 b2 0)) = Some [x1; x2].
Proof.
  intros b1 b2. unfold decode_triple.
  rewrite (a2b_b2a (sextet1 b1)) by (subst b1; auto with b64).
  rewrite (a2b_b2a (sextet2 b1 b2)) by (subst b1 b2; auto with b64).
  rewrite (a2b_b2a (sextet3 b2 0))
    by (subst b2; apply sextet3_lt; auto with b64; reflexivity).
  rewrite octet1_sextets by (subst b1 b2; auto with b64).
  rewrite (octet2_sextets b1 b2 0)
    by (subst b1 b2; auto with b64; reflexivity).
  subst b1 b2. now rewrite !Byte.of_to_N.
Qed.

Lemma decode_quad_encode (x1 x2 x3 : byte) :
  let b1 := Byte.to_N x1 in
  let b2 := Byte.to_N x2 in
  let b3 := Byte.to_N x3 in
  decode_quad (b2a (sextet1 b1)) (b2a (sextet2 b1 b2))
              (b2a (sextet3 b2 b3)) (b2a (sextet4 b3)) = Some [x1; x2; x3].
Proof.
  intros b1 b2 b3. unfold decode_quad.
  rewrite (a2b_b2a (sextet1 b1)) by (subst b1; auto with b64).
  rewrite (a2b_b2a (sextet2 b1 b2)) by (subst b1 b2; auto with b64).
  rewrite (a2b_b2a (sextet3 b2 b3)) by (subst b2 b3; auto with b64).
  rewrite (a2b_b2a (sextet4 b3)) by (subst b3; auto with b64).
  rewrite octet1_sextets by (subst b1 b2; auto with b64).
  rewrite (octet2_sextets b1 b2 b3) by (subst b1 b2 b3; auto with b64).
  rewrite octet3_sextets by (subst b2 b3; auto with b64).
  subst b1 b2 b3. now rewrite !Byte.of_to_N.
Qed.

(** Decoding undoes encoding, for every byte sequence; by induction on a
    bound of the length, since the encoder consumes three octets a step. *)
Lemma b64decode_b64encode_bounded (n : nat) :
  forall data, (List.length data <= n)%nat ->
               b64decode (b64encode data) = Some data.
Proof.
  induction n as [|n IH]; intros data Hlen.
  - destruct data; [reflexivity | simpl in Hlen; lia].
  - destruct data as [|x1 [|x2 [|x3 rest]]].
    + reflexivity.
    + cbn [b64encode b64decode].
      rewrite Ascii.eqb_refl. cbn [String.eqb andb].
      apply decode_pair_encode.
    + cbn [b64encode b64decode].
      rewrite Ascii.eqb_refl. cbn [String.eqb andb].
      rewrite b2a_not_pad
        by (apply sextet3_lt; auto with b64; reflexivity).
      apply decode_triple_encode.
    + cbn [b64encode b64decode].
      rewrite (b2a_not_pad (sextet4 _)) by auto with b64.
      cbn [andb].
      rewrite decode_quad_encode.
      rewrite IH by (simpl in Hlen; lia).
      reflexivity.
Qed.

Lemma b64decode_b64encode (data : list byte) :
  b64decode (b64encode data) = Some data.
Proof. apply (b64decode_b64encode_bounded (List.length data)). lia. Qed.

(** The encoded text is four characters for every three octets begun. *)
Lemma b64encode_length_bounded (n : nat) :
  forall data, (List.length data <= n)%nat ->
    String.length (b64encode data) = (4 * ((List.length data + 2) / 3))%nat.
Proof.
  induction n as [|n IH]; intros data Hlen.
  - destruct data; [reflexivity | simpl in Hlen; lia].
  - destruct data as [|x1 [|x2 [|x3 rest]]]; try reflexivity.
    cbn [b64encode String.length List.length].
    rewrite IH by (simpl in Hlen; lia).
    replace (S (S (S (List.length rest))) + 2)%nat
      with (List.length rest + 2 + 1 * 3)%nat by lia.
    rewrite Nat.div_add by lia. lia.
Qed.

Lemma b64encode_length (data : list byte) :
  String.length (b64encode data) = (4 * ((List.length data + 2) / 3))%nat.
Proof. apply (b64encode_length_bounded (List.length data)). lia. Qed.

(** Hence no two byte sequences have the same encoding. *)
Lemma b64encode_inj (d1 d2 : list byte) :
  b64encode d1 = b64encode d2 -> d1 = d2.
Proof.
  intros H. apply (f_equal b64decode) in H.
  rewrite !b64decode_b64encode in H. now injection H.
Qed.

(** The test vectors of RFC 4648, section 10. *)
Example b64encode_rfc4648 :
  map (fun s => b64encode (list_byte_of_string s))
      [""; "f"; "fo"; "foo"; "foob"; "fooba"; "foobar"]
  = [""; "Zg=="; "Zm8="; "Zm9v"; "Zm9vYg=="; "Zm9vYmE="; "Zm9vYmFy"].
Proof. reflexivity. Qed.

(** The decoder refuses a short group, misplaced padding and a character
    outside the alphabet. *)
Example b64decode_refuses :
  map b64decode ["Zg="; "Z"; "Zm=9"; "Zg==Zg=="; "Z!9v"]
  = [None; None; None; None; None].
Proof. reflexivity. Qed.

End Base64Facts.

(** ** Paths *)

Example ends_with_examples :
  map (ends_with ".jpg") ["a.jpg"; ".jpg"; "jpg"; "a.jpg.txt"; "a.JPG"; ""]
  = [true; true; false; false; false; false].
Proof. reflexivity. Qed.

Example path_join_examples :
  map (fun d => path_join d "a.jpg") ["."; "imgs"; "/"; "a/b"]
  = ["a.jpg"; "imgs/a.jpg"; "/a.jpg"; "a/b/a.jpg"].
Proof. reflexivity. Qed.

(** ** Decimal numerals *)

Example str_int_examples :
  map str_int [25; -3; 0; 1234567890123456789012]%Z
  = ["25"; "-3"; "0"; "1234567890123456789012"].
Proof. reflexivity. Qed.

Lemma int_of_str_str_int (z : Z) : int_of_str (str_int z) = Some z.
Proof.
  unfold int_of_str, str_int.
  rewrite NilZero.isi.
  - cbn. now rewrite DecimalZ.of_to.
  - destruct z; cbn; try discriminate.
    intros [= H]. now apply DecimalPos.Unsigned.to_uint_nonnil in H.
  - destruct z; cbn; try discriminate.
    intros [= H]. now apply DecimalPos.Unsigned.to_uint_nonnil in H.
Qed.

(** ** Runs without a pending interrupt *)

Lemma tick_quiet (w : world) : quiet w -> tick w = (Ok tt, w).
Proof. intros Hq. unfold tick. now rewrite Hq. Qed.

Lemma stdout_write_quiet (s : string) (w : world) :
  quiet w ->
  stdout_write s w = (Ok tt, set_stdout (out_flushed w) (out_pending w ++ s) w).
Proof. intros Hq. unfold stdout_write, bind. now rewrite tick_quiet. Qed.

Lemma stdout_flush_quiet (w : world) :
  quiet w ->
  stdout_flush w = (Ok tt, set_stdout (out_flushed w ++ out_pending w) "" w).
Proof. intros Hq. unfold stdout_flush, bind. now rewrite tick_quiet. Qed.

Lemma print_quiet (s : string) (w : world) :
  quiet w ->
  print s w
  = (Ok tt, set_stdout (out_flushed w) (out_pending w ++ s ++ LF) w).
Proof. intros Hq. unfold print. now rewrite stdout_write_quiet. Qed.

Lemma eprint_quiet (s : string) (w : world) :
  quiet w -> eprint s w = (Ok tt, set_err (err w ++ s ++ LF) w).
Proof. intros Hq. unfold eprint, bind. now rewrite tick_quiet. Qed.

Lemma isfile_quiet (path : string) (w : world) :
  quiet w -> isfile path w = (Ok (regular (fs w) path), w).
Proof. intros Hq. unfold isfile, bind. now rewrite tick_quiet. Qed.

Lemma read_bytes_quiet (path : string) (data : list byte) (w : world) :
  quiet w -> fs w path = Some (File true data) ->
  read_bytes path w = (Ok data, w).
Proof.
  intros Hq Hf. unfold read_bytes, bind. rewrite tick_quiet by exact Hq.
  now rewrite Hf.
Qed.

(** A write followed by a flush leaves everything written so far, and the
    new text, flushed. *)
Lemma write_flush_quiet (s : string) (w : world) :
  quiet w ->
  (stdout_write s ;; stdout_flush) w
  = (Ok tt, set_stdout (stdout_all w ++ s) "" w).
Proof.
  intros Hq. unfold bind. rewrite stdout_write_quiet by exact Hq.
  rewrite stdout_flush_quiet by exact Hq.
  unfold stdout_all, set_stdout; cbn. now rewrite append_assoc.
Qed.

(** ** Interruptible runs: the rules *)

Section Steps.
Variable f0 : filesystem.

Lemma steps_eq {A} (m : M A) (c c' : nat) (s s' : string) (a : A) :
  steps f0 m c s a -> c = c' -> s = s' -> steps f0 m c' s' a.
Proof. now intros H <- <-. Qed.

Lemma steps_ret {A} (a : A) : steps f0 (ret a) 0 "" a.
Proof.
  intros w Hw. exists w, "". repeat split; try assumption.
  - unfold stdout_all. now rewrite append_nil_r.
  - destruct (sigint w) as [k|] eqn:E; cbn.
    + rewrite Nat.sub_0_r. now repeat split.
    + now repeat split.
Qed.

(** A primitive: one operation, which an interrupt replaces. *)
Lemma steps_prim {A} (v : world -> A) (g : world -> world) (s : string)
      (a : A) :
  (forall w, fs (g w) = fs w) -> (forall w, stdin (g w) = stdin w) ->
  (forall w, sigint (g w) = sigint w) ->
  (forall w, stdout_all (g w) = stdout_all w ++ s) ->
  (forall w, fs w = f0 -> v w = a) ->
  steps f0 (tick ;; fun w => (Ok (v w), g w)) 1 s a.
Proof.
  intros Hfs Hin Hsig Hout Hv w Hw. unfold bind, tick.
  destruct (sigint w) as [[|k]|] eqn:E.
  - exists (set_sigint None w), "". cbn. repeat split; try assumption.
    + unfold stdout_all; cbn. now rewrite append_nil_r.
    + apply is_prefix_nil.
  - exists (g (set_sigint (Some k) w)), s. cbn.
    rewrite Hfs, Hin, Hsig, Hout, Nat.sub_0_r. cbn.
    rewrite (Hv (set_sigint (Some k) w)) by exact Hw.
    repeat split; assumption.
  - exists (g w), s. rewrite Hfs, Hin, Hsig, Hout, (Hv w Hw).
    repeat split; assumption.
Qed.

(** Sequencing adds the operations and joins the texts. *)
Lemma steps_bind {A B} (m : M A) (k : A -> M B) (c1 c2 : nat)
      (s1 s2 : string) (a : A) (b : B) :
  steps f0 m c1 s1 a -> steps f0 (k a) c2 s2 b ->
  steps f0 (bind m k) (c1 + c2) (s1 ++ s2) b.
Proof.
  intros Hm Hk w Hw. unfold bind.
  destruct (Hm w Hw) as (w1 & p1 & Hf1 & Hi1 & Ho1 & H1).
  destruct (sigint w) as [n|] eqn:E.
  - destruct (Nat.ltb n c1) eqn:L1.
    + destruct H1 as (-> & Hs1 & Hp1).
      apply Nat.ltb_lt in L1.
      exists w1, p1. repeat split; try assumption.
      replace (Nat.ltb n (c1 + c2)) with true
        by (symmetry; apply Nat.ltb_lt; lia).
      repeat split; [assumption|]. now apply is_prefix_app_r.
    + destruct H1 as (-> & Hs1 & ->).
      apply Nat.ltb_ge in L1.
      destruct (Hk w1 Hf1) as (w2 & p2 & Hf2 & Hi2 & Ho2 & H2).
      rewrite Hs1 in H2.
      exists w2, (s1 ++ p2). repeat split.
      * assumption.
      * congruence.
      * rewrite Ho2, Ho1. apply append_assoc.
      * destruct (Nat.ltb (n - c1) c2) eqn:L2.
        -- apply Nat.ltb_lt in L2.
           replace (Nat.ltb n (c1 + c2)) with true
             by (symmetry; apply Nat.ltb_lt; lia).
           destruct H2 as (-> & Hs2 & Hp2). repeat split; [assumption|].
           now apply is_prefix_app_l.
        -- apply Nat.ltb_ge in L2.
           replace (Nat.ltb n (c1 + c2)) with false
             by (symmetry; apply Nat.ltb_ge; lia).
           destruct H2 as (-> & Hs2 & ->). repeat split.
           rewrite Hs2. f_equal. lia.
  - destruct H1 as (-> & Hs1 & ->).
    destruct (Hk w1 Hf1) as (w2 & p2 & Hf2 & Hi2 & Ho2 & H2).
    rewrite Hs1 in H2. destruct H2 as (-> & Hs2 & ->).
    exists w2, (s1 ++ s2). repeat split; try assumption.
    + congruence.
    + rewrite Ho2, Ho1. apply append_assoc.
Qed.

(** A loop whose turns all take [c] operations. *)
Lemma steps_for_each {X} (l : list X) (body : X -> M unit) (c : nat)
      (text : X -> string) :
  (forall x, In x l -> steps f0 (body x) c (text x) tt) ->
  steps f0 (for_each l body) (c * List.length l)
        (fold_right append "" (map text l)) tt.
Proof.
  induction l as [|x l IH]; intros H.
  - cbn [for_each List.length map fold_right]. rewrite Nat.mul_0_r.
    apply steps_ret.
  - cbn [for_each List.length map fold_right].
    apply (steps_eq _ (c + c * List.length l) _
                    (text x ++ fold_right append "" (map text l)));
      [|lia|reflexivity].
    apply (steps_bind _ _ _ _ _ _ tt).
    + apply H. now left.
    + apply IH. intros y Hy. apply H. now right.
Qed.

Lemma steps_stdout_write (s : string) : steps f0 (stdout_write s) 1 s tt.
Proof.
  unfold stdout_write.
  apply (steps_prim (fun _ => tt)
           (fun w => set_stdout (out_flushed w) (out_pending w ++ s) w));
    try reflexivity.
  intros w. unfold stdout_all; cbn. now rewrite append_assoc.
Qed.

Lemma steps_stdout_flush : steps f0 stdout_flush 1 "" tt.
Proof.
  unfold stdout_flush.
  apply (steps_prim (fun _ => tt)
           (fun w => set_stdout (out_flushed w ++ out_pending w) "" w));
    reflexivity.
Qed.

Lemma steps_eprint (s : string) : steps f0 (eprint s) 1 "" tt.
Proof.
  unfold eprint.
  apply (steps_prim (fun _ => tt) (fun w => set_err (err w ++ s ++ LF) w));
    try reflexivity.
  intros w. unfold stdout_all; cbn. now rewrite append_nil_r.
Qed.

Lemma steps_sleep (ms : N) : steps f0 (sleep ms) 1 "" tt.
Proof.
  unfold sleep.
  apply (steps_prim (fun _ => tt) (fun w => set_clock (clock w + ms)%N w));
    try reflexivity.
  intros w. unfold stdout_all; cbn. now rewrite append_nil_r.
Qed.

Lemma steps_isfile (path : string) :
  steps f0 (isfile path) 1 "" (regular f0 path).
Proof.
  unfold isfile.
  apply (steps_prim (fun w => regular (fs w) path) (fun w => w));
    try reflexivity.
  - intros w. now rewrite append_nil_r.
  - now intros w ->.
Qed.

Lemma steps_read_bytes (path : string) (data : list byte) :
  f0 path = Some (File true data) -> steps f0 (read_bytes path) 1 "" data.
Proof.
  intros Hf w Hw. unfold read_bytes, bind, tick.
  destruct (sigint w) as [[|k]|] eqn:E.
  - exists (set_sigint None w), "". cbn. repeat split; try assumption.
    + unfold stdout_all; cbn. now rewrite append_nil_r.
    + apply is_prefix_nil.
  - exists (set_sigint (Some k) w), "". cbn. rewrite Hw, Hf, Nat.sub_0_r.
    repeat split. unfold stdout_all; cbn. now rewrite append_nil_r.
  - exists w, "". rewrite Hw, Hf. repeat split; try assumption.
    now rewrite append_nil_r.
Qed.

Lemma steps_write_flush (s : string) :
  steps f0 (stdout_write s ;; stdout_flush) 2 s tt.
Proof.
  apply (steps_eq _ (1 + 1) _ (s ++ "")); [|reflexivity|apply append_nil_r].
  apply (steps_bind _ _ _ _ _ _ tt);
    [apply steps_stdout_write | apply steps_stdout_flush].
Qed.

Lemma steps_move_cursor (row col : Z) :
  steps f0 (move_cursor row col) 2 (cursor_sequence row col) tt.
Proof. apply steps_write_flush. Qed.

Lemma steps_display_image (path : string) (o : options) :
  displayable f0 path ->
  steps f0 (display_image path o) (display_cost f0 path)
        (display_text f0 path o) tt.
Proof.
  intros Hd. unfold display_image, display_cost, display_text.
  pose proof (Hd) as Hd'. unfold displayable in Hd'.
  destruct (f0 path) as [[[|] data|names|sdata]|] eqn:Hf.
  - apply (steps_eq _ (1 + (1 + 2)) _
             ("" ++ "" ++ image_sequence (build_opts o)
                                         (Base64.b64encode data)));
      [| unfold regular; now rewrite Hf | reflexivity].
    apply (steps_bind _ _ _ _ _ _ (regular f0 path)); [apply steps_isfile|].
    unfold regular. rewrite Hf. cbn [negb].
    apply (steps_bind _ _ _ _ _ _ data); [now apply steps_read_bytes|].
    apply steps_write_flush.
  - now destruct (Hd' data).
  - apply (steps_eq _ (1 + 1) _ ("" ++ ""));
      [| unfold regular; now rewrite Hf | reflexivity].
    apply (steps_bind _ _ _ _ _ _ (regular f0 path)); [apply steps_isfile|].
    unfold regular. rewrite Hf. cbn [negb]. apply steps_eprint.
  - apply (steps_eq _ (1 + 1) _ ("" ++ ""));
      [| unfold regular; now rewrite Hf | reflexivity].
    apply (steps_bind _ _ _ _ _ _ (regular f0 path)); [apply steps_isfile|].
    unfold regular. rewrite Hf. cbn [negb]. apply steps_eprint.
  - apply (steps_eq _ (1 + 1) _ ("" ++ ""));
      [| unfold regular; now rewrite Hf | reflexivity].
    apply (steps_bind _ _ _ _ _ _ (regular f0 path)); [apply steps_isfile|].
    unfold regular. rewrite Hf. cbn [negb]. apply steps_eprint.
Qed.

End Steps.

(** Whatever the interrupt does, a run under [steps] writes an initial
    segment of the full text, all of it when it returns. *)
Lemma steps_outcome {A} (f : filesystem) (m : M A) (c : nat) (full : string)
      (a : A) (w : world) :
  steps f m c full a -> fs w = f ->
  exists r w' p,
    m w = (r, w') /\ stdout_all w' = stdout_all w ++ p /\ is_prefix p full
    /\ ((r = Ok a /\ p = full) \/ r = Raise KeyboardInterrupt).
Proof.
  intros H Hw. destruct (H w Hw) as (w' & p & _ & _ & Ho & Hr).
  destruct (sigint w) as [k|].
  - destruct (Nat.ltb k c).
    + destruct Hr as (E & _ & Hp).
      exists (Raise KeyboardInterrupt), w', p. now repeat split; try right.
    + destruct Hr as (E & _ & ->).
      exists (Ok a), w', full.
      repeat split; try assumption; [apply is_prefix_refl | now left].
  - destruct Hr as (E & _ & ->).
    exists (Ok a), w', full.
    repeat split; try assumption; [apply is_prefix_refl | now left].
Qed.

(** ** The option list and the sequence builder *)

Lemma build_opts_acc (o : options) (acc : list string) :
  fold_left (fun opts kv => (opts ++ [option_token kv])%list) o acc
  = (acc ++ map option_token o)%list.
Proof.
  revert acc. induction o as [|kv o IH]; intros acc; cbn.
  - now rewrite app_nil_r.
  - rewrite IH, <- app_assoc. reflexivity.
Qed.

Lemma build_opts_cons (o : options) :
  build_opts o = "inline=1" :: map option_token o.
Proof. unfold build_opts. now rewrite build_opts_acc. Qed.

(** [sep.join(x :: l)] is [x] followed by every other item behind a
    separator. *)
Lemma concat_cons_sep (sep x : string) (l : list string) :
  String.concat sep (x :: l)
  = x ++ String.concat "" (map (fun y => sep ++ y) l).
Proof.
  revert x. induction l as [|y l IH]; intros x.
  - cbn. now rewrite append_nil_r.
  - change (String.concat sep (x :: y :: l))
      with (x ++ sep ++ String.concat sep (y :: l)).
    rewrite IH. destruct l as [|z l]; cbn [map String.concat].
    + now rewrite append_nil_r.
    + cbn [append]. now rewrite (append_assoc sep y).
Qed.

(** The token of a pair without [=] in its key and value determines the
    pair. *)
Lemma option_token_inj (k v k' v' : string) :
  has_char "=" k' = false -> has_char "=" v' = false ->
  k ++ "=" ++ v = k' ++ "=" ++ v' -> k = k' /\ v = v'.
Proof.
  revert k. induction k' as [|c' k' IH]; intros k Hk Hv H.
  - destruct k as [|c k]; cbn in H.
    + injection H as ->. now split.
    + injection H as -> H. exfalso.
      assert (E : has_char "=" v' = true).
      { rewrite <- H, has_char_append. cbn. apply orb_true_r. }
      congruence.
  - cbn in Hk. apply orb_false_iff in Hk as [Hc Hk].
    destruct k as [|c k]; cbn in H.
    + injection H as E _. subst c'. cbn in Hc. discriminate.
    + injection H as -> H. destruct (IH k Hk Hv H) as [-> ->]. now split.
Qed.

(** In a dictionary, the token of such a pair occurs once. *)
Lemma count_token (o : options) (k v : string) :
  dict_wf o -> In (k, v) o ->
  has_char "=" k = false -> has_char "=" v = false ->
  count_occ string_dec (map option_token o) (option_token (k, v)) = 1%nat.
Proof.
  unfold dict_wf. intros Hwf Hin Hk Hv.
  assert (Hkey : forall kv, option_token kv = option_token (k, v) -> kv = (k, v)).
  { intros [k0 v0] E. unfold option_token in E; cbn in E.
    destruct (option_token_inj k0 v0 k v Hk Hv E) as [-> ->]. reflexivity. }
  induction o as [|kv o IH]; [destruct Hin|].
  cbn in Hwf. inversion Hwf as [|? ? Hnot Hnd]; subst.
  cbn [map count_occ]. destruct (string_dec (option_token kv) (option_token (k, v))) as [E|E].
  - apply Hkey in E. subst kv. f_equal.
    apply count_occ_not_In. intros Hc. apply in_map_iff in Hc as [kv' [E' Hin']].
    apply Hkey in E'. subst kv'. apply Hnot.
    change k with (fst (k, v)). now apply in_map.
  - destruct Hin as [->|Hin]; [congruence|]. now apply IH.
Qed.

Lemma nth_error_build_opts (o : options) (i : nat) (kv : string * string) :
  nth_error o i = Some kv ->
  nth_error (build_opts o) (S i) = Some (option_token kv).
Proof.
  intros H. rewrite build_opts_cons. cbn [nth_error].
  now apply map_nth_error.
Qed.

Lemma display_image_quiet (path : string) (o : options) (data : list byte)
      (w : world) :
  quiet w -> fs w path = Some (File true data) ->
  display_image path o w
  = (Ok tt, set_stdout
              (stdout_all w
               ++ image_sequence (build_opts o) (Base64.b64encode data)) "" w).
Proof.
  intros Hq Hf. unfold display_image, bind at 1.
  rewrite isfile_quiet by exact Hq.
  unfold regular. rewrite Hf. cbn [negb].
  unfold bind at 1. rewrite (read_bytes_quiet path data) by assumption.
  now apply write_flush_quiet.
Qed.

Lemma display_image_missing (path : string) (o : options) (w : world) :
  quiet w -> regular (fs w) path = false ->
  display_image path o w
  = (Ok tt, set_err (err w ++ "Error: Image file not found: " ++ path ++ LF) w).
Proof.
  intros Hq Hf. unfold display_image, bind at 1.
  rewrite isfile_quiet by exact Hq. rewrite Hf. cbn [negb].
  rewrite eprint_quiet by exact Hq. now rewrite append_assoc.
Qed.

(** C4. [clear_screen] writes exactly ESC [2J ESC [H, and [move_cursor row
    col] writes exactly ESC [ row ; col H with both numbers in decimal, for
    all integers; [move_cursor 6 5] writes ESC [6;5H.  The text is flushed. *)
Theorem cursor_helpers_output (row col : Z) (w : world) :
  quiet w ->
  clear_screen w
  = (Ok tt, set_stdout (stdout_all w ++ String "027" ("[2J" ++ String "027" "[H"))
                       "" w)
  /\ move_cursor row col w
     = (Ok tt, set_stdout (stdout_all w ++ String "027" "["
                                     ++ str_int row ++ ";"
                                     ++ str_int col ++ "H") "" w)
  /\ int_of_str (str_int row) = Some row
  /\ int_of_str (str_int col) = Some col
  /\ move_cursor 6 5 w
     = (Ok tt, set_stdout (stdout_all w ++ String "027" "[6;5H") "" w)
  /\ (forall w0, exists r w' p,
        clear_screen w0 = (r, w')
        /\ stdout_all w' = stdout_all w0 ++ p
        /\ is_prefix p (String "027" ("[2J" ++ String "027" "[H"))
        /\ ((r = Ok tt /\ p = String "027" ("[2J" ++ String "027" "[H"))
            \/ r = Raise KeyboardInterrupt))
  /\ (forall w0, exists r w' p,
        move_cursor row col w0 = (r, w')
        /\ stdout_all w' = stdout_all w0 ++ p
        /\ is_prefix p (String "027" "[" ++ str_int row ++ ";"
                                     ++ str_int col ++ "H")
        /\ ((r = Ok tt /\ p = String "027" "[" ++ str_int row ++ ";"
                                             ++ str_int col ++ "H")
            \/ r = Raise KeyboardInterrupt)).
Proof.
  intros Hq.
  split; [unfold clear_screen; now rewrite write_flush_quiet|].
  split; [unfold move_cursor; now rewrite write_flush_quiet|].
  split; [apply int_of_str_str_int|].
  split; [apply int_of_str_str_int|].
  split; [unfold move_cursor; now rewrite write_flush_quiet|].
  split; intros w0.
  - exact (steps_outcome (fs w0) _ _ _ tt w0
             (steps_write_flush (fs w0) _) eq_refl).
  - exact (steps_outcome (fs w0) _ _ _ tt w0
             (steps_move_cursor (fs w0) row col) eq_refl).
Qed.

Lemma cursor_helpers_output_witness :
  quiet (initial_world sample_fs [] None)
  /\ stdout_all (snd (move_cursor 6 5 (initial_world sample_fs [] None)))
     = String "027" "[6;5H"
  /\ stdout_all (snd (clear_screen (initial_world sample_fs [] None)))
     = String "027" ("[2J" ++ String "027" "[H").
Proof.
  split; [reflexivity|].
  destruct (cursor_helpers_output 6 5 (initial_world sample_fs [] None)
              eq_refl) as (Hc & _ & _ & _ & Hm & _).
  rewrite Hm, Hc. split; reflexivity.
Defined.

(** C2. For every options dictionary, [display_image] emits
    ESC ]1337;File= options : payload BEL, the options being [inline=1]
    followed by the caller's [key=value] pairs in insertion order, joined by
    [;]: [inline=1] is the first token, and a supplied [width=400px] is in
    the list once, at the place it was supplied. *)
Theorem display_image_sequence_form
        (path : string) (o : options) (data : list byte) (w : world) :
  dict_wf o -> quiet w -> fs w path = Some (File true data) ->
  let payload := Base64.b64encode data in
  let emitted :=
    String "027" "]1337;File=" ++ "inline=1"
    ++ String.concat "" (map (fun kv => ";" ++ fst kv ++ "=" ++ snd kv) o)
    ++ ":" ++ payload ++ String "007" "" in
  display_image path o w = (Ok tt, set_stdout (stdout_all w ++ emitted) "" w)
  /\ emitted = image_sequence (build_opts o) payload
  /\ build_opts o = "inline=1" :: map (fun kv => fst kv ++ "=" ++ snd kv) o
  /\ hd_error (build_opts o) = Some "inline=1"
  /\ (forall i, nth_error o i = Some ("width", "400px") ->
                nth_error (build_opts o) (S i) = Some "width=400px"
                /\ count_occ string_dec (build_opts o) "width=400px" = 1%nat)
  /\ (forall w0, fs w0 = fs w ->
        exists r w' p,
          display_image path o w0 = (r, w')
          /\ stdout_all w' = stdout_all w0 ++ p
          /\ is_prefix p emitted
          /\ ((r = Ok tt /\ p = emitted) \/ r = Raise KeyboardInterrupt)).
Proof.
  intros Hwf Hq Hf payload emitted.
  assert (E : emitted = image_sequence (build_opts o) payload).
  { unfold emitted, image_sequence. rewrite build_opts_cons, concat_cons_sep.
    rewrite map_map. unfold ESC, BEL, option_token. cbn [append].
    now rewrite ?append_assoc. }
  split; [rewrite E; now apply display_image_quiet|].
  split; [exact E|].
  split; [apply build_opts_cons|].
  split; [now rewrite build_opts_cons|].
  split.
  - intros i Hi. split.
    + now apply (nth_error_build_opts o i ("width", "400px")).
    + rewrite build_opts_cons. cbn [count_occ].
      destruct (string_dec "inline=1" "width=400px") as [D|_];
        [discriminate D|].
      apply (count_token o "width" "400px"); try reflexivity; [exact Hwf|].
      eapply nth_error_In; eassumption.
  - intros w0 Hw0.
    assert (Hd : displayable (fs w) path)
      by (intros d; rewrite Hf; discriminate).
    pose proof (steps_display_image (fs w) path o Hd) as Hs.
    unfold display_text in Hs. rewrite Hf in Hs. fold payload in Hs.
    rewrite <- E in Hs.
    exact (steps_outcome (fs w) _ _ _ tt w0 Hs Hw0).
Qed.

Lemma display_image_sequence_form_witness :
  dict_wf [("width", "400px"); ("align", "left")]
  /\ quiet (initial_world sample_fs [] None)
  /\ fs (initial_world sample_fs [] None) "img.bin" = Some (File true ten_bytes)
  /\ stdout_all (snd (display_image "img.bin"
                        [("width", "400px"); ("align", "left")]
                        (initial_world sample_fs [] None)))
     = String "027" "]1337;File=inline=1;width=400px;align=left:AAECAwQFBgcICQ=="
       ++ String "007" "".
Proof.
  assert (Hwf : dict_wf [("width", "400px"); ("align", "left")]).
  { unfold dict_wf; cbn. repeat constructor; cbn; intuition discriminate. }
  split; [exact Hwf|]. split; [reflexivity|]. split; [reflexivity|].
  destruct (display_image_sequence_form "img.bin"
              [("width", "400px"); ("align", "left")] ten_bytes
              (initial_world sample_fs [] None) Hwf eq_refl eq_refl)
    as (H & _).
  rewrite H. reflexivity.
Defined.

(** C5. When the caller's dictionary has the key [inline] itself, the
    implicit [inline=1] is still the first token and the caller's entry
    follows at its own place: nothing is removed. *)
Theorem display_image_inline_not_deduplicated
        (path : string) (o : options) (data : list byte) (w : world)
        (i : nat) (v : string) :
  quiet w -> fs w path = Some (File true data) ->
  nth_error o i = Some ("inline", v) ->
  display_image path o w
  = (Ok tt, set_stdout
              (stdout_all w
               ++ image_sequence (build_opts o) (Base64.b64encode data)) "" w)
  /\ nth_error (build_opts o) 0 = Some "inline=1"
  /\ nth_error (build_opts o) (S i) = Some ("inline=" ++ v)
  /\ List.length (build_opts o) = S (List.length o)
  /\ exists rest,
       image_sequence (build_opts o) (Base64.b64encode data)
       = String "027" "]1337;File=inline=1;" ++ rest.
Proof.
  intros Hq Hf Hi. repeat split.
  - now apply display_image_quiet.
  - now rewrite build_opts_cons.
  - now apply (nth_error_build_opts o i ("inline", v)).
  - rewrite build_opts_cons. cbn. now rewrite length_map.
  - unfold image_sequence. rewrite build_opts_cons, concat_cons_sep.
    destruct o as [|kv o]; [destruct i; discriminate Hi|].
    cbn [map String.concat].
    unfold ESC.
    destruct (map _ o); eexists; cbn [append]; rewrite ?append_assoc;
      reflexivity.
Qed.

Lemma display_image_inline_not_deduplicated_witness :
  quiet (initial_world sample_fs [] None)
  /\ fs (initial_world sample_fs [] None) "img.bin" = Some (File true ten_bytes)
  /\ nth_error [("width", "50%"); ("inline", "0")] 1 = Some ("inline", "0")
  /\ stdout_all (snd (display_image "img.bin"
                        [("width", "50%"); ("inline", "0")]
                        (initial_world sample_fs [] None)))
     = String "027" "]1337;File=inline=1;width=50%;inline=0:AAECAwQFBgcICQ=="
       ++ String "007" "".
Proof.
  split; [reflexivity|]. split; [reflexivity|]. split; [reflexivity|].
  destruct (display_image_inline_not_deduplicated "img.bin"
              [("width", "50%"); ("inline", "0")] ten_bytes
              (initial_world sample_fs [] None) 1 "0" eq_refl eq_refl eq_refl)
    as (H & _).
  rewrite H. reflexivity.
Defined.

(** C3. Decoding the base64 text the encoder produces for a non-empty byte
    sequence gives the sequence back. *)
Theorem base64_round_trip (B : list byte) :
  B <> [] -> Base64.b64decode (Base64.b64encode B) = Some B.
Proof. intros _. apply Base64Facts.b64decode_b64encode. Qed.

Lemma base64_round_trip_witness :
  ten_bytes <> []
  /\ Base64.b64decode (Base64.b64encode ten_bytes) = Some ten_bytes.
Proof.
  assert (H : ten_bytes <> []) by discriminate.
  split; [exact H | exact (base64_round_trip ten_bytes H)].
Defined.

(** ** The one-shot script *)

Lemma load_image_usage (argv : list string) (w : world) :
  quiet w -> (List.length argv < 2)%nat ->
  load_image argv w
  = (Raise (SystemExit 1),
     set_stdout (out_flushed w)
                (out_pending w ++ "Usage: python im.py <image_path>" ++ LF) w).
Proof.
  intros Hq Hlen. unfold load_image.
  apply Nat.ltb_lt in Hlen. rewrite Hlen.
  unfold bind. now rewrite print_quiet.
Qed.

Lemma load_image_reads (argv : list string) (path : string) (w : world) :
  nth_error argv 1 = Some path ->
  Nat.ltb (List.length argv) 2 = false /\ nth 1 argv "" = path.
Proof.
  destruct argv as [|a0 [|a1 rest]]; cbn; try discriminate.
  intros [= ->]. now split.
Qed.

Lemma load_image_file (argv : list string) (path : string) (data : list byte)
      (w : world) :
  quiet w -> nth_error argv 1 = Some path ->
  fs w path = Some (File true data) ->
  load_image argv w
  = (Ok tt,
     set_stdout (stdout_all w ++ String "027" "]1337;File=inline=1:"
                 ++ Base64.b64encode data ++ String "007" (String "010" ""))
                "" w).
Proof.
  intros Hq Hn Hf. unfold load_image.
  destruct (load_image_reads argv path w Hn) as [-> ->].
  unfold bind, ret. rewrite (read_bytes_quiet path data) by assumption.
  rewrite print_quiet by exact Hq.
  rewrite stdout_flush_quiet by exact Hq.
  unfold set_stdout, stdout_all, ESC, BEL, LF; cbn.
  now rewrite !append_assoc.
Qed.



(** C1, as the script behaves.  On a file holding the ten octets [0x00] to
    [0x09] the script's standard output is
    ESC ]1337;File=inline=1:AAECAwQFBgcICQ== BEL followed by the line feed
    that [print] appends; it exits with code 0 and standard error is empty. *)
Theorem load_image_ten_bytes_output
        (argv : list string) (path : string) (f : filesystem)
        (lines : list string) :
  nth_error argv 1 = Some path ->
  f path = Some (File true ten_bytes) ->
  run_script (load_image argv) (initial_world f lines None)
  = mkProcess 0
      (String "027" "]1337;File=inline=1:AAECAwQFBgcICQ=="
       ++ String "007" (String "010" ""))
      "" None.
Proof.
  intros Hn Hf. unfold run_script.
  rewrite (load_image_file argv path ten_bytes) by (assumption || reflexivity).
  reflexivity.
Qed.

Lemma load_image_ten_bytes_output_witness :
  nth_error ["load_image.py"; "img.bin"] 1 = Some "img.bin"
  /\ sample_fs "img.bin" = Some (File true ten_bytes)
  /\ stdout (run_script (load_image ["load_image.py"; "img.bin"])
                        (initial_world sample_fs [] None))
     = String "027" "]1337;File=inline=1:AAECAwQFBgcICQ=="
       ++ String "007" (String "010" "").
Proof.
  split; [reflexivity|]. split; [reflexivity|].
  rewrite (load_image_ten_bytes_output ["load_image.py"; "img.bin"] "img.bin"
             sample_fs [] eq_refl eq_refl).
  reflexivity.
Defined.

(** C1 as stated fails: the payload of the ten octets is not
    [AAECAwQFBgcI], and a line feed follows the bell. *)
Lemma load_image_ten_bytes_not_claimed :
  stdout (run_script (load_image ["load_image.py"; "img.bin"])
                     (initial_world sample_fs [] None))
  <> String "027" "]1337;File=inline=1:AAECAwQFBgcI" ++ String "007" "".
Proof. vm_compute. discriminate. Qed.

(** C7, as the script behaves.  Without the image path the script exits
    with code 1 and its usage message goes to standard output, nothing to
    standard error; the demo driver's message for a missing directory goes
    to standard error. *)
Theorem load_image_usage_on_stdout
        (argv : list string) (dir : string) (f : filesystem)
        (lines : list string) :
  (List.length argv < 2)%nat ->
  (forall names, f dir <> Some (Dir names)) ->
  run_script (load_image argv) (initial_world f lines None)
  = mkProcess 1 ("Usage: python im.py <image_path>" ++ String "010" "") ""
      None
  /\ run_script (main dir) (initial_world f lines None)
     = mkProcess 1 ""
         ("Error: Image directory not found: " ++ dir ++ String "010" "")
         None.
Proof.
  intros Hlen Hdir. split.
  - unfold run_script. rewrite load_image_usage by (assumption || reflexivity).
    reflexivity.
  - unfold run_script, main, bind, is_dir, eprint, sys_exit, raise, tick, bind.
    cbn. destruct (f dir) as [[r d|names|sdata]|] eqn:E; cbn.
    + reflexivity.
    + now destruct (Hdir names).
    + reflexivity.
    + reflexivity.
Qed.

Lemma load_image_usage_on_stdout_witness :
  (List.length ["load_image.py"] < 2)%nat
  /\ (forall names, sample_fs "nowhere" <> Some (Dir names))
  /\ run_script (load_image ["load_image.py"]) (initial_world sample_fs [] None)
     = mkProcess 1 ("Usage: python im.py <image_path>" ++ String "010" "") ""
         None.
Proof.
  assert (H1 : (List.length ["load_image.py"] < 2)%nat) by (cbn; lia).
  assert (H2 : forall names, sample_fs "nowhere" <> Some (Dir names))
    by (intros names; discriminate).
  split; [exact H1|]. split; [exact H2|].
  exact (proj1 (load_image_usage_on_stdout ["load_image.py"] "nowhere"
                  sample_fs [] H1 H2)).
Defined.

(** C7 as stated fails: the usage message is not on standard error. *)
Lemma load_image_usage_not_on_stderr :
  let p := run_script (load_image ["load_image.py"])
                      (initial_world sample_fs [] None) in
  uncaught p = None
  /\ stderr p = ""
  /\ ~ on_stderr "Usage: python im.py <image_path>" p.
Proof.
  split; [reflexivity|]. split; [reflexivity|].
  intros (pre & post & H). cbn in H.
  destruct pre; discriminate H.
Qed.

(** ** The demo driver's checks *)

Lemma filter_none {A} (P : A -> bool) (l : list A) :
  (forall x, In x l -> P x = false) -> filter P l = [].
Proof.
  induction l as [|x l IH]; intros H; cbn; [reflexivity|].
  rewrite (H x) by now left. apply IH. intros y Hy. apply H. now right.
Qed.

(** C8. In a directory that exists and has no entry matching [*.jpg] or
    [*.png], the demo driver exits with code 1 and an error message on
    standard error, and standard output stays empty: no escape sequence is
    written. *)
Theorem main_no_images
        (dir : string) (names : list string) (f : filesystem)
        (lines : list string) :
  f dir = Some (Dir names) ->
  (forall n, In n names ->
             ends_with ".jpg" n = false /\ ends_with ".png" n = false) ->
  run_script (main dir) (initial_world f lines None)
  = mkProcess 1 ""
      ("Error: No JPG or PNG images found in " ++ dir ++ String "010" "")
      None.
Proof.
  intros Hf Hnames.
  unfold run_script, main, find_images, glob, is_dir, eprint, sys_exit, raise,
    tick, bind, ret.
  cbn -[filter ends_with]. rewrite Hf. cbn -[filter ends_with].
  rewrite !Hf.
  rewrite !filter_none by (intros n Hn; apply (Hnames n Hn)).
  reflexivity.
Qed.

Lemma main_no_images_witness :
  sample_fs "empty" = Some (Dir ["notes.txt"])
  /\ (forall n, In n ["notes.txt"] ->
                ends_with ".jpg" n = false /\ ends_with ".png" n = false)
  /\ run_script (main "empty") (initial_world sample_fs [] None)
     = mkProcess 1 ""
         ("Error: No JPG or PNG images found in empty" ++ String "010" "")
         None.
Proof.
  assert (H : forall n, In n ["notes.txt"] ->
                        ends_with ".jpg" n = false /\ ends_with ".png" n = false).
  { intros n [<-|[]]. split; reflexivity. }
  split; [reflexivity|]. split; [exact H|].
  exact (main_no_images "empty" ["notes.txt"] sample_fs [] eq_refl H).
Defined.

(** ** A path that is not a regular file *)




(** C10. [display_image] on a path that is not a regular file writes its
    error line to standard error and returns normally, so whatever follows
    it runs; in a run of the whole demo where one listed image does not
    resolve, the later phases are reached and the exit code is 0. *)
Theorem display_image_missing_returns
        (path : string) (o : options) (w : world) :
  quiet w -> regular (fs w) path = false ->
  let w' := set_err (err w ++ "Error: Image file not found: " ++ path
                     ++ String "010" "") w in
  display_image path o w = (Ok tt, w')
  /\ (forall (A : Type) (k : M A), (display_image path o ;; k) w = k w')
  /\ let p := run_script (main "imgs")
                (initial_world sample_fs [""; ""; ""; ""] None) in
     exit_code p = 0%Z
     /\ stderr p = "Error: Image file not found: imgs/c.png" ++ String "010" ""
     /\ ends_with
          ("GT Terminal Advanced Image Demo - Complete" ++ LF
           ++ "========================================" ++ LF
           ++ "Thank you for trying the advanced image features!" ++ LF)
          (stdout p) = true.
Proof.
  intros Hq Hf w'.
  pose proof (display_image_missing path o w Hq Hf) as Hd.
  split; [exact Hd|]. split.
  - intros A k. unfold bind. now rewrite Hd.
  - vm_compute. repeat split.
Qed.

Lemma display_image_missing_returns_witness :
  quiet (initial_world sample_fs [] None)
  /\ regular (fs (initial_world sample_fs [] None)) "imgs/c.png" = false
  /\ display_image "imgs/c.png" [("width", "40%")]
       (initial_world sample_fs [] None)
     = (Ok tt,
        set_err ("Error: Image file not found: imgs/c.png" ++ String "010" "")
                (initial_world sample_fs [] None)).
Proof.
  split; [reflexivity|]. split; [reflexivity|].
  exact (proj1 (display_image_missing_returns "imgs/c.png" [("width", "40%")]
                  (initial_world sample_fs [] None) eq_refl eq_refl)).
Defined.


(** ** The animation phase *)

Lemma range_length (n : nat) : List.length (range n) = n.
Proof. unfold range. now rewrite length_map, length_seq. Qed.

Lemma anim_target_bounds (i : Z) :
  (7 <= anim_row i <= 17)%Z /\ (10 <= anim_col i <= 49)%Z.
Proof.
  unfold anim_row, anim_col.
  pose proof (Z.mod_pos_bound i 20 ltac:(lia)).
  pose proof (Z.mod_pos_bound i 40 ltac:(lia)).
  lia.
Qed.

Section Animation.
Variable f0 : filesystem.
Variable img : string.
Hypothesis Himg : displayable f0 img.

Lemma steps_animation_frame (i : Z) :
  steps f0 (animation_frame img i) (frame_cost f0 img) (frame_text f0 img i) tt.
Proof.
  unfold animation_frame, frame_cost, frame_text.
  apply (steps_eq _ _ (2 + (display_cost f0 img + 1)) _
           (cursor_sequence (anim_row i) (anim_col i)
            ++ display_text f0 img frame_options ++ ""));
    [|lia|now rewrite append_nil_r].
  apply (steps_bind _ _ _ _ _ _ _ tt); [apply steps_move_cursor|].
  apply (steps_bind _ _ _ _ _ _ _ tt);
    [now apply steps_display_image | apply steps_sleep].
Qed.

Lemma steps_animation_loop :
  steps f0 (animation_loop img) (frame_cost f0 img * 100)
        (frames_text f0 img (range 100)) tt.
Proof.
  unfold animation_loop, frames_text.
  rewrite <- (range_length 100) at 2.
  apply steps_for_each. intros i _. apply steps_animation_frame.
Qed.

Lemma steps_animation_setup :
  steps f0 (animation_setup img) (setup_cost f0 img) (setup_text f0 img) tt.
Proof.
  unfold animation_setup, setup_cost, setup_text.
  apply (steps_bind _ _ _ _ _ _ _ tt);
    [apply steps_move_cursor | now apply steps_display_image].
Qed.

End Animation.

Lemma animation_tail_quiet (w : world) (line : string) (rest : list string) :
  quiet w -> stdin w = line :: rest ->
  exists w',
    animation_tail w = (Ok tt, w')
    /\ stdout_all w'
       = stdout_all w ++ cursor_sequence 25 1
         ++ "Press Enter to continue..." ++ LF
    /\ sigint w' = None /\ stdin w' = rest /\ fs w' = fs w.
Proof.
  destruct w as [f i o p e s c]. unfold quiet. cbn. intros -> ->.
  eexists. split; [reflexivity|].
  unfold stdout_all. cbn. repeat split.
  now rewrite !append_nil_r, !append_assoc.
Qed.

(** On an image that cannot be read the first turn of the loop already
    fails, after the cursor move at most. *)
Lemma animation_frame_unreadable (img : string) (data : list byte) (i : Z)
      (w : world) :
  fs w img = Some (File false data) ->
  exists e w' p,
    animation_frame img i w = (Raise e, w')
    /\ stdout_all w' = stdout_all w ++ p
    /\ is_prefix p (cursor_sequence (anim_row i) (anim_col i))
    /\ (e = KeyboardInterrupt \/ e = PermissionError img).
Proof.
  destruct w as [f si o p e s c]. cbn [fs]. intros Hf.
  unfold animation_frame, move_cursor.
  set (cs := cursor_sequence (anim_row i) (anim_col i)). clearbody cs.
  unfold display_image, isfile, read_bytes, stdout_write, stdout_flush, bind,
    tick, regular, stdout_all.
  destruct s as [[|[|[|[|k]]]]|]; cbn; rewrite ?Hf; cbn; rewrite ?Hf.
  - exists KeyboardInterrupt. eexists. exists "".
    split; [reflexivity|]. cbn. rewrite append_nil_r.
    split; [reflexivity|]. split; [apply is_prefix_nil | now left].
  - exists KeyboardInterrupt. eexists. exists cs.
    split; [reflexivity|]. cbn. rewrite append_assoc.
    split; [reflexivity|]. split; [apply is_prefix_refl | now left].
  - exists KeyboardInterrupt. eexists. exists cs.
    split; [reflexivity|]. cbn. rewrite append_nil_r, append_assoc.
    split; [reflexivity|]. split; [apply is_prefix_refl | now left].
  - exists KeyboardInterrupt. eexists. exists cs.
    split; [reflexivity|]. cbn. rewrite append_nil_r, append_assoc.
    split; [reflexivity|]. split; [apply is_prefix_refl | now left].
  - exists (PermissionError img). eexists. exists cs.
    split; [reflexivity|]. cbn. rewrite append_nil_r, append_assoc.
    split; [reflexivity|]. split; [apply is_prefix_refl | now right].
  - exists (PermissionError img). eexists. exists cs.
    split; [reflexivity|]. cbn. rewrite append_nil_r, append_assoc.
    split; [reflexivity|]. split; [apply is_prefix_refl | now right].
Qed.

Lemma animation_loop_unreadable (img : string) (data : list byte) (w : world) :
  fs w img = Some (File false data) ->
  exists e w' p,
    animation_loop img w = (Raise e, w')
    /\ stdout_all w' = stdout_all w ++ p
    /\ is_prefix p (frames_text (fs w) img (range 100))
    /\ (e = KeyboardInterrupt \/ e = PermissionError img).
Proof.
  intros Hf.
  destruct (animation_frame_unreadable img data 0 w Hf)
    as (e & w' & p & E & Ho & Hp & He).
  exists e, w', p. repeat split; try assumption.
  - unfold animation_loop.
    change (range 100) with (0%Z :: map Z.of_nat (seq 1 99)).
    cbn [for_each]. unfold bind. now rewrite E.
  - unfold frames_text.
    change (range 100) with (0%Z :: map Z.of_nat (seq 1 99)).
    cbn [map fold_right]. unfold frame_text at 1.
    now apply is_prefix_app_r, is_prefix_app_r.
Qed.

(** C9. The animation loop makes at most 100 turns: what it writes is an
    initial segment of the text of the turns 0 to 99, all of it when the loop
    ends by itself, the text of turn [i] starting with the cursor move to
    the row and column computed from [i] alone.  An interrupt delivered
    during the loop ends the loop with [KeyboardInterrupt]; the [except]
    clause prints the stopped message and the phase goes on to its end
    normally, as does the whole run. *)
Theorem animation_bounded_and_interruptible (f : filesystem) (img : string) :
  List.length (range 100) = 100%nat
  /\ (forall i, frame_text f img i
                = String "027" "[" ++ str_int (7 + Z.abs (i mod 20 - 10))
                  ++ ";" ++ str_int (10 + i mod 40) ++ "H"
                  ++ display_text f img frame_options)
  /\ (forall i, (7 <= anim_row i <= 17)%Z /\ (10 <= anim_col i <= 49)%Z)
  /\ (forall w, fs w = f ->
        exists r w' p,
          animation_loop img w = (r, w')
          /\ stdout_all w' = stdout_all w ++ p
          /\ is_prefix p (frames_text f img (range 100))
          /\ ((r = Ok tt /\ p = frames_text f img (range 100))
              \/ r = Raise KeyboardInterrupt
              \/ r = Raise (PermissionError img)))
  /\ (forall w k line rest,
        displayable f img ->
        fs w = f -> stdin w = line :: rest -> sigint w = Some k ->
        (setup_cost f img <= k < setup_cost f img + frame_cost f img * 100)%nat ->
        exists w1 w2 w3 p,
          animation_setup img w = (Ok tt, w1)
          /\ animation_loop img w1 = (Raise KeyboardInterrupt, w2)
          /\ stdout_all w2 = stdout_all w ++ setup_text f img ++ p
          /\ is_prefix p (frames_text f img (range 100))
          /\ (animation_guarded img ;; animation_tail) w = (Ok tt, w3)
          /\ stdout_all w3
             = stdout_all w2 ++ LF ++ "Animation stopped." ++ LF
               ++ cursor_sequence 25 1 ++ "Press Enter to continue..." ++ LF
          /\ sigint w3 = None /\ stdin w3 = rest)
  /\ let p := run_script (main "imgs")
                (initial_world sample_fs [""; ""; ""; ""] (Some 300%nat)) in
     exit_code p = 0%Z
     /\ String.index 0 "Animation stopped." (stdout p) <> None
     /\ ends_with
          ("GT Terminal Advanced Image Demo - Complete" ++ LF
           ++ "========================================" ++ LF
           ++ "Thank you for trying the advanced image features!" ++ LF)
          (stdout p) = true.
Proof.
  split; [apply range_length|].
  split.
  { intros i. unfold frame_text, cursor_sequence, anim_row, anim_col, ESC.
    repeat (progress (rewrite ?append_assoc; cbn [append])). reflexivity. }
  split; [apply anim_target_bounds|].
  split.
  { intros w Hw.
    destruct (f img) as [[[|] data|names|sdata]|] eqn:Hf.
    2:{ rewrite <- Hw in Hf.
        destruct (animation_loop_unreadable img data w Hf)
          as (e & w' & p & E & Ho & Hp & He).
        exists (Raise e), w', p. rewrite <- Hw.
        repeat split; try assumption.
        destruct He as [-> | ->]; auto. }
    all: assert (Himg : displayable f img)
      by (intros d; rewrite Hf; discriminate).
    all: destruct (steps_outcome f _ _ _ tt w
                     (steps_animation_loop f img Himg) Hw)
      as (r & w' & p & E & Ho & Hp & Hr).
    all: exists r, w', p; repeat split; try assumption.
    all: destruct Hr as [Hr | Hr]; auto. }
  split.
  { intros w k line rest Himg Hw Hin Hsig Hk.
    destruct (steps_animation_setup f img Himg w Hw)
      as (w1 & p1 & Hf1 & Hi1 & Ho1 & H1).
    rewrite Hsig in H1.
    replace (Nat.ltb k (setup_cost f img)) with false in H1
      by (symmetry; apply Nat.ltb_ge; lia).
    destruct H1 as (Es & Hs1 & ->).
    destruct (steps_animation_loop f img Himg w1 Hf1)
      as (w2 & p & Hf2 & Hi2 & Ho2 & H2).
    rewrite Hs1 in H2.
    replace (Nat.ltb (k - setup_cost f img) (frame_cost f img * 100))
      with true in H2 by (symmetry; apply Nat.ltb_lt; lia).
    destruct H2 as (El & Hs2 & Hp).
    assert (Eh : animation_guarded img w
                 = (Ok tt, set_stdout (out_flushed w2)
                             (out_pending w2 ++ (LF ++ "Animation stopped.")
                              ++ LF) w2)).
    { unfold animation_guarded, try_except, animation_body, bind.
      rewrite Es, El. cbn [is_KeyboardInterrupt].
      now apply print_quiet. }
    destruct (animation_tail_quiet
                (set_stdout (out_flushed w2)
                   (out_pending w2 ++ (LF ++ "Animation stopped.") ++ LF) w2)
                line rest)
      as (w3 & Et & Ho3 & Hs3 & Hi3 & _).
    { exact Hs2. }
    { cbn. congruence. }
    exists w1, w2, w3, p. repeat split; try assumption.
    - rewrite Ho2, Ho1. apply append_assoc.
    - unfold bind. rewrite Eh. exact Et.
    - rewrite Ho3. unfold stdout_all; cbn. now rewrite !append_assoc. }
  vm_compute. repeat split. discriminate.
Qed.

Lemma animation_bounded_and_interruptible_witness :
  displayable sample_fs "imgs/a.jpg"
  /\ fst ((animation_guarded "imgs/a.jpg" ;; animation_tail)
            (initial_world sample_fs [""] (Some 50%nat))) = Ok tt.
Proof.
  assert (H : displayable sample_fs "imgs/a.jpg")
    by (intros data; discriminate).
  split; [exact H|].
  destruct (animation_bounded_and_interruptible sample_fs "imgs/a.jpg")
    as (_ & _ & _ & _ & Hint & _).
  destruct (Hint (initial_world sample_fs [""] (Some 50%nat)) 50%nat "" []
              H eq_refl eq_refl eq_refl)
    as (w1 & w2 & w3 & p & _ & _ & _ & _ & E & _).
  { cbn. lia. }
  rewrite E. reflexivity.
Defined.

(* ================================================================== *)
(** * Part III: further properties of the scripts *)
(* ================================================================== *)

(** ** The payload *)

Lemma list_ind3 {A} (P : list A -> Prop) :
  P [] -> (forall a, P [a]) -> (forall a b, P [a; b]) ->
  (forall a b c l, P l -> P (a :: b :: c :: l)) ->
  forall l, P l.
Proof.
  intros H0 H1 H2 H3 l.
  assert (H : forall n l, (List.length l <= n)%nat -> P l).
  { induction n as [|n IH]; intros l' Hl.
    - destruct l'; [exact H0 | cbn in Hl; lia].
    - destruct l' as [|a [|b [|c l']]]; auto.
      apply H3, IH. cbn in Hl. lia. }
  apply (H (List.length l)). lia.
Qed.

Lemma all_chars_append (P : ascii -> bool) (a b : string) :
  all_chars P (a ++ b) = all_chars P a && all_chars P b.
Proof.
  induction a as [|c a IH]; cbn; [reflexivity|].
  now rewrite IH, andb_assoc.
Qed.

Lemma all_chars_has_char (P : ascii -> bool) (s : string) (c : ascii) :
  all_chars P s = true -> P c = false -> has_char c s = false.
Proof.
  induction s as [|x s IH]; cbn; [reflexivity|].
  intros H Hc. apply andb_true_iff in H as [Hx Hs].
  rewrite (IH Hs Hc), orb_false_r.
  destruct (Ascii.eqb_spec c x) as [->|]; [congruence | reflexivity].
Qed.

Lemma get_has_char (s : string) (n : nat) (c : ascii) :
  String.get n s = Some c -> has_char c s = true.
Proof.
  revert n. induction s as [|x s IH]; intros n; cbn; [discriminate|].
  destruct n as [|n].
  - intros [= ->]. now rewrite Ascii.eqb_refl.
  - intros H. rewrite (IH n H). apply orb_true_r.
Qed.

(** A character of the alphabet, the padding aside. *)
Lemma b2a_in_table (n : N) :
  (n < 64)%N ->
  has_char (Base64.b2a n) Base64.table_b2a = true.
Proof.
  intros H. unfold Base64.b2a.
  destruct (String.get (N.to_nat n) Base64.table_b2a) as [c|] eqn:E.
  - exact (get_has_char _ _ _ E).
  - exfalso.
    assert (L : (N.to_nat n < 64)%nat) by lia.
    revert E. generalize (N.to_nat n) L. clear.
    intros k Hk.
    do 64 (destruct k as [|k]; [discriminate|]). lia.
Qed.

Lemma b64_padding_add3 (n : nat) : b64_padding (3 + n) = b64_padding n.
Proof.
  unfold b64_padding.
  replace (3 + n)%nat with (n + 1 * 3)%nat by lia.
  now rewrite Nat.Div0.mod_add.
Qed.

Section PayloadGroups.
Import Base64 Base64Facts.

Lemma b2a_sextets_in_table (x1 x2 x3 : byte) :
  let b1 := Byte.to_N x1 in
  let b2 := Byte.to_N x2 in
  let b3 := Byte.to_N x3 in
  has_char (b2a (sextet1 b1)) table_b2a = true
  /\ has_char (b2a (sextet2 b1 b2)) table_b2a = true
  /\ has_char (b2a (sextet3 b2 b3)) table_b2a = true
  /\ has_char (b2a (sextet4 b3)) table_b2a = true
  /\ has_char (b2a (sextet2 b1 0)) table_b2a = true
  /\ has_char (b2a (sextet3 b2 0)) table_b2a = true.
Proof.
  intros b1 b2 b3.
  pose proof (to_N_lt x1). pose proof (to_N_lt x2). pose proof (to_N_lt x3).
  assert (Z0 : (0 < 256)%N) by reflexivity.
  repeat split; apply b2a_in_table;
    [ now apply sextet1_lt | now apply sextet2_lt | now apply sextet3_lt
    | now apply sextet4_lt | now apply sextet2_lt | now apply sextet3_lt ].
Qed.

Lemma b64encode_body (data : list byte) :
  exists body,
    b64encode data = body ++ b64_padding (List.length data)
    /\ all_chars (fun c => has_char c table_b2a) body = true.
Proof.
  induction data as [|x1|x1 x2|x1 x2 x3 rest IH] using list_ind3.
  - exists "". now split.
  - destruct (b2a_sextets_in_table x1 x1 x1) as (H1 & _ & _ & _ & H2 & _).
    eexists (String _ (String _ "")). split; [reflexivity|].
    cbn [all_chars]. now rewrite H1, H2.
  - destruct (b2a_sextets_in_table x1 x2 x2) as (H1 & H2 & _ & _ & _ & H3).
    eexists (String _ (String _ (String _ ""))). split; [reflexivity|].
    cbn [all_chars]. now rewrite H1, H2, H3.
  - destruct IH as (body & E & Hb).
    destruct (b2a_sextets_in_table x1 x2 x3) as (H1 & H2 & H3 & H4 & _).
    eexists (String _ (String _ (String _ (String _ body)))). split.
    + cbn [b64encode append]. rewrite E.
      change (List.length (x1 :: x2 :: x3 :: rest))
        with (3 + List.length rest)%nat.
      now rewrite b64_padding_add3.
    + cbn [all_chars]. now rewrite H1, H2, H3, H4, Hb.
Qed.

Lemma b64encode_chars (data : list byte) :
  all_chars (fun c => has_char c (table_b2a ++ "=")) (b64encode data) = true.
Proof.
  destruct (b64encode_body data) as (body & -> & Hb).
  rewrite all_chars_append. apply andb_true_iff. split.
  - revert Hb. generalize body. clear.
    induction body as [|c s IH]; cbn [all_chars]; [reflexivity|].
    intros H. apply andb_true_iff in H as [Hc Hs].
    rewrite (IH Hs), andb_true_r, has_char_append, Hc. reflexivity.
  - unfold b64_padding.
    destruct (List.length data mod 3)%nat as [|[|k]]; reflexivity.
Qed.

Lemma b64encode_app3 (k : nat) :
  forall a b, List.length a = (3 * k)%nat ->
              b64encode (a ++ b) = b64encode a ++ b64encode b.
Proof.
  induction k as [|k IH]; intros a b Ha.
  - destruct a; [reflexivity | cbn in Ha; lia].
  - destruct a as [|x1 [|x2 [|x3 a]]]; cbn in Ha; try lia.
    cbn [app b64encode append]. rewrite IH by lia. reflexivity.
Qed.

End PayloadGroups.

(** X1. The payload takes four characters for every three octets begun:
    its length is a multiple of four. *)
Theorem payload_length (data : list byte) :
  String.length (Base64.b64encode data)
  = (4 * ((List.length data + 2) / 3))%nat
  /\ (String.length (Base64.b64encode data) mod 4 = 0)%nat.
Proof.
  pose proof (Base64Facts.b64encode_length data) as H. split; [exact H|].
  rewrite H, Nat.mul_comm. apply Nat.Div0.mod_mul.
Qed.

(** X2. The payload is characters of the alphabet followed by the
    padding: none, [==] or [=] as the number of octets leaves the
    remainder 0, 1 or 2 on division by three. *)
Theorem payload_padding (data : list byte) :
  exists body,
    Base64.b64encode data = body ++ b64_padding (List.length data)
    /\ all_chars (fun c => has_char c Base64.table_b2a) body = true
    /\ has_char "=" body = false.
Proof.
  destruct (b64encode_body data) as (body & E & Hb).
  exists body. repeat split; try assumption.
  now apply (all_chars_has_char _ body "=" Hb).
Qed.

(** X3. A character outside the alphabet and the padding is not in the
    payload: no escape, bell, line feed, colon or semicolon, so the
    payload cannot end the sequence early nor be taken for an option. *)
Theorem payload_has_no_separator (data : list byte) (c : ascii) :
  has_char c (Base64.table_b2a ++ "=") = false ->
  has_char c (Base64.b64encode data) = false.
Proof.
  intros H. exact (all_chars_has_char _ _ c (b64encode_chars data) H).
Qed.

Lemma payload_has_no_separator_witness :
  has_char "007" (Base64.table_b2a ++ "=") = false
  /\ has_char "007" (Base64.b64encode ten_bytes) = false.
Proof.
  split; [reflexivity|].
  exact (payload_has_no_separator ten_bytes "007" eq_refl).
Defined.

(** X4. Files with different contents have different payloads. *)
Theorem payload_injective (d1 d2 : list byte) :
  Base64.b64encode d1 = Base64.b64encode d2 -> d1 = d2.
Proof. apply Base64Facts.b64encode_inj. Qed.

Lemma payload_injective_witness :
  Base64.b64encode ten_bytes = Base64.b64encode ten_bytes
  /\ ten_bytes = ten_bytes.
Proof.
  split; [reflexivity|].
  exact (payload_injective ten_bytes ten_bytes eq_refl).
Defined.

(** X5. Encoding can be done in pieces: after a number of octets that is a
    multiple of three, the payload of the whole is the payload of the
    first part followed by the payload of the rest. *)
Theorem payload_chunks (a b : list byte) :
  (List.length a mod 3 = 0)%nat ->
  Base64.b64encode (a ++ b) = Base64.b64encode a ++ Base64.b64encode b.
Proof.
  intros H. apply (b64encode_app3 (List.length a / 3)).
  pose proof (Nat.div_mod_eq (List.length a) 3). lia.
Qed.

Lemma payload_chunks_witness :
  (List.length [x00; x01; x02] mod 3 = 0)%nat
  /\ Base64.b64encode ([x00; x01; x02] ++ [x03])
     = Base64.b64encode [x00; x01; x02] ++ Base64.b64encode [x03].
Proof.
  split; [reflexivity|].
  exact (payload_chunks [x00; x01; x02] [x03] eq_refl).
Defined.

(** ** Reading a sequence back *)

(** Two texts free of a separator, each followed by nothing or by the
    separator, are equal when the wholes are. *)
Lemma split_at_separator (c : ascii) (a b r1 r2 : string) :
  has_char c a = false -> has_char c b = false ->
  (r1 = "" \/ exists r, r1 = String c r) ->
  (r2 = "" \/ exists r, r2 = String c r) ->
  a ++ r1 = b ++ r2 -> a = b /\ r1 = r2.
Proof.
  revert b. induction a as [|x a IH]; intros b Ha Hb H1 H2 E.
  - destruct b as [|y b]; [now split|]. exfalso. cbn in E, Hb.
    apply orb_false_iff in Hb as [Hy _].
    destruct H1 as [-> | [r ->]]; [discriminate|].
    injection E as -> _. now rewrite Ascii.eqb_refl in Hy.
  - cbn in Ha. apply orb_false_iff in Ha as [Hx Ha].
    destruct b as [|y b].
    + exfalso. cbn in E.
      destruct H2 as [-> | [r ->]]; [discriminate|].
      injection E as -> _. now rewrite Ascii.eqb_refl in Hx.
    + cbn in E, Hb. apply orb_false_iff in Hb as [_ Hb].
      injection E as -> E.
      destruct (IH b Ha Hb H1 H2 E) as [-> ->]. now split.
Qed.

Lemma append_inv_head (a b c : string) : a ++ b = a ++ c -> b = c.
Proof. induction a; cbn; intros H; [assumption | injection H; auto]. Qed.

Lemma append_inv_last (a b : string) (c : ascii) :
  a ++ String c "" = b ++ String c "" -> a = b.
Proof.
  revert b. induction a as [|x a IH]; intros [|y b] E; cbn in E.
  - reflexivity.
  - injection E as _ E. destruct b; discriminate E.
  - injection E as _ E. destruct a; discriminate E.
  - injection E as -> E. f_equal. now apply IH.
Qed.

Lemma option_token_key_inj (kv kv' : string * string) :
  has_char "=" (fst kv) = false -> has_char "=" (fst kv') = false ->
  option_token kv = option_token kv' -> kv = kv'.
Proof.
  destruct kv as [k v], kv' as [k' v']. unfold option_token. cbn.
  intros Hk Hk' E.
  destruct (split_at_separator "=" k k' (String "=" v) (String "=" v') Hk Hk')
    as [-> E']; eauto.
  now injection E' as ->.
Qed.

(** The joined tail of the option list: every token behind its [;]. *)
Lemma joined_tokens_cons (a : string) (t : list string) :
  String.concat "" (map (fun y => ";" ++ y) (a :: t))
  = String ";" (a ++ String.concat "" (map (fun y => ";" ++ y) t)).
Proof. destruct t; cbn; [now rewrite append_nil_r | reflexivity]. Qed.

Lemma joined_tokens_shape (t : list string) :
  String.concat "" (map (fun y => ";" ++ y) t) = ""
  \/ exists r, String.concat "" (map (fun y => ";" ++ y) t) = String ";" r.
Proof.
  destruct t as [|a t]; [now left | right].
  rewrite joined_tokens_cons. eauto.
Qed.

Lemma joined_tokens_inj (t1 t2 : list string) :
  Forall (fun t => has_char ";" t = false) t1 ->
  Forall (fun t => has_char ";" t = false) t2 ->
  String.concat "" (map (fun y => ";" ++ y) t1)
  = String.concat "" (map (fun y => ";" ++ y) t2) ->
  t1 = t2.
Proof.
  revert t2. induction t1 as [|a t1 IH]; intros [|b t2] F1 F2 E.
  - reflexivity.
  - rewrite joined_tokens_cons in E. discriminate E.
  - rewrite joined_tokens_cons in E. discriminate E.
  - rewrite !joined_tokens_cons in E. injection E as E.
    inversion F1 as [|? ? Ha F1']; inversion F2 as [|? ? Hb F2']; subst.
    destruct (split_at_separator ";" a b _ _ Ha Hb
                (joined_tokens_shape t1) (joined_tokens_shape t2) E)
      as [-> E'].
    f_equal. now apply IH.
Qed.

Lemma joined_tokens_no_colon (t : list string) :
  Forall (fun x => has_char ":" x = false) t ->
  has_char ":" (String.concat "" (map (fun y => ";" ++ y) t)) = false.
Proof.
  induction t as [|a t IH]; intros F; [reflexivity|].
  inversion F as [|? ? Ha F']; subst.
  rewrite joined_tokens_cons. cbn [has_char].
  rewrite has_char_append, Ha, (IH F'). reflexivity.
Qed.

Lemma clean_options_spec (o : options) :
  clean_options o = true ->
  Forall (fun kv => has_char "=" (fst kv) = false) o
  /\ Forall (fun t => has_char ";" t = false) (map option_token o)
  /\ Forall (fun t => has_char ":" t = false) (map option_token o).
Proof.
  unfold clean_options. induction o as [|kv o IH]; cbn; intros H.
  - repeat split; constructor.
  - apply andb_true_iff in H as [H Ho].
    apply andb_true_iff in H as [H H3]. apply andb_true_iff in H as [H1 H2].
    apply negb_true_iff in H1, H2, H3.
    destruct (IH Ho) as (F1 & F2 & F3).
    repeat split; constructor; assumption.
Qed.

Lemma map_option_token_inj (o1 o2 : options) :
  Forall (fun kv => has_char "=" (fst kv) = false) o1 ->
  Forall (fun kv => has_char "=" (fst kv) = false) o2 ->
  map option_token o1 = map option_token o2 -> o1 = o2.
Proof.
  revert o2. induction o1 as [|a o1 IH]; intros [|b o2] F1 F2 E;
    try discriminate E; [reflexivity|].
  injection E as Ea E.
  inversion F1; inversion F2; subst.
  f_equal; [now apply option_token_key_inj | now apply IH].
Qed.

(** X6. The sequence can be read back: when no key holds [=] and no key
    or value holds [;] or [:], the emitted text determines the options, in
    their order, and the contents of the file. *)
Theorem image_sequence_injective (o1 o2 : options) (d1 d2 : list byte) :
  clean_options o1 = true -> clean_options o2 = true ->
  image_sequence (build_opts o1) (Base64.b64encode d1)
  = image_sequence (build_opts o2) (Base64.b64encode d2) ->
  o1 = o2 /\ d1 = d2.
Proof.
  intros C1 C2 E.
  destruct (clean_options_spec o1 C1) as (K1 & S1 & L1).
  destruct (clean_options_spec o2 C2) as (K2 & S2 & L2).
  unfold image_sequence in E. apply append_inv_head in E.
  apply append_inv_head in E.
  rewrite !build_opts_cons, !concat_cons_sep, !append_assoc in E.
  apply append_inv_head in E.
  destruct (split_at_separator ":" _ _ _ _
              (joined_tokens_no_colon _ L1) (joined_tokens_no_colon _ L2)
              (or_intror (ex_intro _ _ eq_refl))
              (or_intror (ex_intro _ _ eq_refl)) E) as [Ej Ep].
  split.
  - apply map_option_token_inj; try assumption.
    now apply joined_tokens_inj.
  - injection Ep as Ep. apply append_inv_last in Ep.
    now apply Base64Facts.b64encode_inj.
Qed.

Lemma image_sequence_injective_witness :
  clean_options [("width", "400px")] = true
  /\ image_sequence (build_opts [("width", "400px")])
                    (Base64.b64encode ten_bytes)
     = image_sequence (build_opts [("width", "400px")])
                      (Base64.b64encode ten_bytes)
  /\ [("width", "400px")] = [("width", "400px")] /\ ten_bytes = ten_bytes.
Proof.
  split; [reflexivity|]. split; [reflexivity|].
  exact (image_sequence_injective [("width", "400px")] [("width", "400px")]
           ten_bytes ten_bytes eq_refl eq_refl eq_refl).
Defined.

(** X7. Options are not validated, so a key with [=] in it can give the
    token of another pair; keys without [=] never do. *)
Theorem option_token_ambiguity :
  option_token ("a=b", "c") = option_token ("a", "b=c")
  /\ forall kv kv',
       has_char "=" (fst kv) = false -> has_char "=" (fst kv') = false ->
       option_token kv = option_token kv' -> kv = kv'.
Proof. split; [reflexivity | exact option_token_key_inj]. Qed.

Lemma option_token_ambiguity_witness :
  has_char "=" (fst ("width", "400px")) = false
  /\ option_token ("width", "400px") = option_token ("width", "400px")
  /\ ("width", "400px") = ("width", "400px").
Proof.
  split; [reflexivity|]. split; [reflexivity|].
  exact (proj2 option_token_ambiguity ("width", "400px") ("width", "400px")
           eq_refl eq_refl eq_refl).
Defined.

(** X8. When no option holds a bell, the bell that ends the sequence is
    the only one in it: the terminator cannot be met early, whatever the
    file holds. *)
Theorem image_sequence_single_bell (o : options) (data : list byte) :
  has_char "007" (String.concat ";" (build_opts o)) = false ->
  exists body,
    image_sequence (build_opts o) (Base64.b64encode data)
    = body ++ String "007" ""
    /\ has_char "007" body = false.
Proof.
  intros H.
  exists (ESC ++ "]1337;File=" ++ String.concat ";" (build_opts o) ++ ":"
          ++ Base64.b64encode data).
  split.
  - unfold image_sequence, BEL. now rewrite !append_assoc.
  - rewrite !has_char_append, H.
    now rewrite (all_chars_has_char _ _ "007" (b64encode_chars data) eq_refl).
Qed.

Lemma image_sequence_single_bell_witness :
  has_char "007" (String.concat ";" (build_opts [("width", "50%")])) = false
  /\ exists body,
       image_sequence (build_opts [("width", "50%")])
                      (Base64.b64encode ten_bytes)
       = body ++ String "007" ""
       /\ has_char "007" body = false.
Proof.
  split; [reflexivity|].
  exact (image_sequence_single_bell [("width", "50%")] ten_bytes eq_refl).
Defined.

(** ** Cursor moves *)

Lemma string_of_uint_chars (d : Decimal.uint) :
  all_chars (fun c => has_char c "0123456789") (NilEmpty.string_of_uint d)
  = true.
Proof. induction d; cbn; auto. Qed.

Lemma str_int_chars (z : Z) :
  all_chars (fun c => has_char c "-0123456789") (str_int z) = true.
Proof.
  assert (U : forall d, all_chars (fun c => has_char c "-0123456789")
                                  (NilZero.string_of_uint d) = true).
  { intros d. unfold NilZero.string_of_uint.
    assert (E : all_chars (fun c => has_char c "-0123456789")
                          (NilEmpty.string_of_uint d) = true).
    { pose proof (string_of_uint_chars d) as H. revert H.
      generalize (NilEmpty.string_of_uint d).
      induction s as [|c s IH]; cbn [all_chars]; [reflexivity|].
      intros H. apply andb_true_iff in H as [Hc Hs].
      rewrite (IH Hs), andb_true_r.
      change "-0123456789" with ("-" ++ "0123456789").
      rewrite has_char_append, Hc. apply orb_true_r. }
    destruct d; exact E. }
  unfold str_int. destruct (Z.to_int z); cbn [NilZero.string_of_int all_chars].
  - apply U.
  - now rewrite U.
Qed.

Lemma str_int_inj (a b : Z) : str_int a = str_int b -> a = b.
Proof.
  intros E. apply (f_equal int_of_str) in E.
  rewrite !int_of_str_str_int in E. now injection E.
Qed.

(** X9. Different targets give different cursor sequences: the row and
    the column can be read back from the text. *)
Theorem cursor_sequence_injective (r c r' c' : Z) :
  cursor_sequence r c = cursor_sequence r' c' -> r = r' /\ c = c'.
Proof.
  unfold cursor_sequence, ESC. cbn [append]. intros E.
  injection E as E.
  destruct (split_at_separator ";" (str_int r) (str_int r')
              (String ";" (str_int c ++ "H")) (String ";" (str_int c' ++ "H")))
    as [Er Ec]; eauto.
  - exact (all_chars_has_char _ _ ";" (str_int_chars r) eq_refl).
  - exact (all_chars_has_char _ _ ";" (str_int_chars r') eq_refl).
  - injection Ec as Ec. apply append_inv_last in Ec.
    split; now apply str_int_inj.
Qed.

Lemma cursor_sequence_injective_witness :
  cursor_sequence 6 5 = cursor_sequence 6 5 /\ (6 = 6 /\ 5 = 5)%Z.
Proof.
  split; [reflexivity|].
  exact (cursor_sequence_injective 6 5 6 5 eq_refl).
Defined.

(** ** The two scripts on one file *)

Lemma read_bytes_unreadable (path : string) (data : list byte) (w : world) :
  quiet w -> fs w path = Some (File false data) ->
  read_bytes path w = (Raise (PermissionError path), w).
Proof.
  intros Hq Hf. unfold read_bytes, bind. rewrite tick_quiet by exact Hq.
  now rewrite Hf.
Qed.

(** X10. On a readable file the one-shot script writes what
    [display_image] writes for the empty dictionary, and one line feed
    more. *)
Theorem load_image_agrees_with_display_image
        (argv : list string) (path : string) (data : list byte) (w : world) :
  quiet w -> nth_error argv 1 = Some path ->
  fs w path = Some (File true data) ->
  fst (load_image argv w) = Ok tt
  /\ fst (display_image path [] w) = Ok tt
  /\ stdout_all (snd (load_image argv w))
     = stdout_all (snd (display_image path [] w)) ++ String "010" "".
Proof.
  intros Hq Hn Hf.
  rewrite (load_image_file argv path data w Hq Hn Hf).
  rewrite (display_image_quiet path [] data w Hq Hf).
  repeat split.
  unfold stdout_all at 1 3. cbn [snd out_flushed out_pending set_stdout].
  rewrite !append_nil_r, (append_assoc (stdout_all w)). f_equal.
  unfold image_sequence, build_opts, ESC, BEL. cbn [fold_left String.concat].
  repeat (progress (rewrite ?append_assoc; cbn [append])). reflexivity.
Qed.

Lemma load_image_agrees_with_display_image_witness :
  quiet (initial_world sample_fs [] None)
  /\ nth_error ["load_image.py"; "img.bin"] 1 = Some "img.bin"
  /\ fs (initial_world sample_fs [] None) "img.bin"
     = Some (File true ten_bytes)
  /\ stdout_all (snd (load_image ["load_image.py"; "img.bin"]
                                 (initial_world sample_fs [] None)))
     = stdout_all (snd (display_image "img.bin" []
                                      (initial_world sample_fs [] None)))
       ++ String "010" "".
Proof.
  split; [reflexivity|]. split; [reflexivity|]. split; [reflexivity|].
  exact (proj2 (proj2 (load_image_agrees_with_display_image
                         ["load_image.py"; "img.bin"] "img.bin" ten_bytes
                         (initial_world sample_fs [] None)
                         eq_refl eq_refl eq_refl))).
Defined.

(** X11. A file that exists but cannot be read passes the [isfile] check:
    [display_image] then raises [PermissionError] and writes nothing, on
    either stream; the one-shot script ends on the same uncaught exception
    with code 1. *)
Theorem unreadable_file_raises
        (argv : list string) (path : string) (o : options)
        (data : list byte) (w : world) :
  quiet w -> nth_error argv 1 = Some path ->
  fs w path = Some (File false data) ->
  display_image path o w = (Raise (PermissionError path), w)
  /\ load_image argv w = (Raise (PermissionError path), w)
  /\ run_script (load_image argv) w
     = mkProcess 1 (stdout_all w) (err w) (Some (PermissionError path)).
Proof.
  intros Hq Hn Hf.
  assert (Hd : display_image path o w = (Raise (PermissionError path), w)).
  { unfold display_image, bind at 1. rewrite isfile_quiet by exact Hq.
    unfold regular. rewrite Hf. cbn [negb]. unfold bind.
    now rewrite (read_bytes_unreadable path data). }
  assert (Hl : load_image argv w = (Raise (PermissionError path), w)).
  { unfold load_image.
    destruct (load_image_reads argv path w Hn) as [-> ->].
    unfold bind, ret. now rewrite (read_bytes_unreadable path data). }
  repeat split; try assumption.
  unfold run_script. now rewrite Hl.
Qed.

Lemma unreadable_file_raises_witness :
  let f := fun p => if String.eqb p "locked.png"
                    then Some (File false ten_bytes) else None in
  quiet (initial_world f [] None)
  /\ nth_error ["load_image.py"; "locked.png"] 1 = Some "locked.png"
  /\ f "locked.png" = Some (File false ten_bytes)
  /\ run_script (load_image ["load_image.py"; "locked.png"])
                (initial_world f [] None)
     = mkProcess 1 "" "" (Some (PermissionError "locked.png")).
Proof.
  intros f.
  split; [reflexivity|]. split; [reflexivity|]. split; [reflexivity|].
  exact (proj2 (proj2 (unreadable_file_raises
                         ["load_image.py"; "locked.png"] "locked.png" []
                         ten_bytes (initial_world f [] None)
                         eq_refl eq_refl eq_refl))).
Defined.

(** ** The bouncing pattern *)

(** X12. The pattern repeats: the row every 20 turns, the column every 40,
    and so the whole frame every 40 turns. *)
Theorem animation_pattern_periodic (f : filesystem) (img : string) (i : Z) :
  anim_row (i + 20) = anim_row i
  /\ anim_col (i + 40) = anim_col i
  /\ frame_text f img (i + 40) = frame_text f img i.
Proof.
  assert (R : anim_row (i + 20) = anim_row i).
  { unfold anim_row. replace (i + 20)%Z with (i + 1 * 20)%Z by lia.
    now rewrite Z.mod_add by lia. }
  assert (R2 : anim_row (i + 40) = anim_row i).
  { unfold anim_row. replace (i + 40)%Z with (i + 2 * 20)%Z by lia.
    now rewrite Z.mod_add by lia. }
  assert (C : anim_col (i + 40) = anim_col i).
  { unfold anim_col. replace (i + 40)%Z with (i + 1 * 40)%Z by lia.
    now rewrite Z.mod_add by lia. }
  repeat split; try assumption.
  unfold frame_text. now rewrite R2, C.
Qed.

(** X13. The overlay moves one cell a turn: the row goes up for ten turns
    and down for ten, between 7 and 17, and the column goes right by one
    and jumps back from 49 to 10. *)
Theorem animation_pattern_steps (i : Z) :
  anim_row (i + 1)
  = (if (i mod 20 <? 10)%Z then anim_row i - 1 else anim_row i + 1)%Z
  /\ anim_col (i + 1)
     = (if (i mod 40 =? 39)%Z then 10 else anim_col i + 1)%Z
  /\ (anim_row i = 17 <-> i mod 20 = 0)%Z
  /\ (anim_row i = 7 <-> i mod 20 = 10)%Z.
Proof.
  unfold anim_row, anim_col.
  destruct (Z.ltb_spec (i mod 20) 10); destruct (Z.eqb_spec (i mod 40) 39);
    repeat split; try intros ?;
    Z.div_mod_to_equations; lia.
Qed.

(** ** Runs without interrupt: the rules *)

Lemma is_suffix_refl (s : string) : is_suffix s s.
Proof. now exists "". Qed.

Lemma is_suffix_app (a s t : string) : is_suffix s t -> is_suffix s (a ++ t).
Proof. intros [pre ->]. exists (a ++ pre). now rewrite append_assoc. Qed.

Lemma occurs_suffix (msg tail s : string) :
  is_suffix (msg ++ tail) s -> occurs msg s.
Proof. intros [pre ->]. now exists pre, tail. Qed.

Lemma occurs_app_l (msg a b : string) : occurs msg a -> occurs msg (a ++ b).
Proof.
  intros (pre & post & ->). exists pre, (post ++ b).
  now rewrite !append_assoc.
Qed.

Lemma occurs_app_r (msg a b : string) : occurs msg b -> occurs msg (a ++ b).
Proof.
  intros (pre & post & ->). exists (a ++ pre), post.
  now rewrite !append_assoc.
Qed.

Lemma str_mul_add (s : string) (n m : nat) :
  str_mul s (n + m) = str_mul s n ++ str_mul s m.
Proof.
  induction n as [|n IH]; cbn; [reflexivity|].
  now rewrite IH, append_assoc.
Qed.

Section Runs.
Variable f0 : filesystem.

Lemma runs_eq {A} (m : M A) (i i' : list string) (o o' e e' : string)
      (c c' : N) (r : outcome A) :
  runs f0 m i i' o e c r -> o = o' -> e = e' -> c = c' ->
  runs f0 m i i' o' e' c' r.
Proof. now intros H <- <- <-. Qed.

Lemma runs_ret {A} (a : A) (i : list string) :
  runs f0 (ret a) i i "" "" 0 (Ok a).
Proof.
  intros w Hf Hq Hi. exists w.
  rewrite !append_nil_r, N.add_0_r. now repeat split.
Qed.

Lemma runs_raise {A} (x : exn) (i : list string) :
  runs f0 (@raise A x) i i "" "" 0 (Raise x).
Proof.
  intros w Hf Hq Hi. exists w.
  rewrite !append_nil_r, N.add_0_r. now repeat split.
Qed.

Lemma runs_bind {A B} (m : M A) (k : A -> M B) (i i1 i2 : list string)
      (o1 o2 e1 e2 : string) (c1 c2 : N) (a : A) (r : outcome B) :
  runs f0 m i i1 o1 e1 c1 (Ok a) -> runs f0 (k a) i1 i2 o2 e2 c2 r ->
  runs f0 (bind m k) i i2 (o1 ++ o2) (e1 ++ e2) (c1 + c2) r.
Proof.
  intros Hm Hk w Hf Hq Hi.
  destruct (Hm w Hf Hq Hi) as (w1 & E1 & Hf1 & Hq1 & Hi1 & Ho1 & He1 & Hc1).
  destruct (Hk w1 Hf1 Hq1 Hi1)
    as (w2 & E2 & Hf2 & Hq2 & Hi2 & Ho2 & He2 & Hc2).
  exists w2. unfold bind. rewrite E1, E2.
  repeat split; try assumption.
  - rewrite Ho2, Ho1. apply append_assoc.
  - rewrite He2, He1. apply append_assoc.
  - rewrite Hc2, Hc1. lia.
Qed.

Lemma runs_bind_raise {A B} (m : M A) (k : A -> M B) (i i1 : list string)
      (o e : string) (c : N) (x : exn) :
  runs f0 m i i1 o e c (Raise x) -> runs f0 (bind m k) i i1 o e c (Raise x).
Proof.
  intros Hm w Hf Hq Hi.
  destruct (Hm w Hf Hq Hi) as (w1 & E1 & H).
  exists w1. unfold bind. now rewrite E1.
Qed.

Lemma runs_try_ok {A} (body : M A) (handles : exn -> bool)
      (handler : exn -> M A) (i i1 : list string) (o e : string) (c : N)
      (a : A) :
  runs f0 body i i1 o e c (Ok a) ->
  runs f0 (try_except body handles handler) i i1 o e c (Ok a).
Proof.
  intros Hm w Hf Hq Hi.
  destruct (Hm w Hf Hq Hi) as (w1 & E1 & H).
  exists w1. unfold try_except. now rewrite E1.
Qed.

Lemma runs_try_caught {A} (body : M A) (handles : exn -> bool)
      (handler : exn -> M A) (i i1 i2 : list string) (o1 o2 e1 e2 : string)
      (c1 c2 : N) (x : exn) (r : outcome A) :
  runs f0 body i i1 o1 e1 c1 (Raise x) -> handles x = true ->
  runs f0 (handler x) i1 i2 o2 e2 c2 r ->
  runs f0 (try_except body handles handler) i i2 (o1 ++ o2) (e1 ++ e2)
       (c1 + c2) r.
Proof.
  intros Hm Hh Hk w Hf Hq Hi.
  destruct (Hm w Hf Hq Hi) as (w1 & E1 & Hf1 & Hq1 & Hi1 & Ho1 & He1 & Hc1).
  destruct (Hk w1 Hf1 Hq1 Hi1)
    as (w2 & E2 & Hf2 & Hq2 & Hi2 & Ho2 & He2 & Hc2).
  exists w2. unfold try_except. rewrite E1, Hh, E2.
  repeat split; try assumption.
  - rewrite Ho2, Ho1. apply append_assoc.
  - rewrite He2, He1. apply append_assoc.
  - rewrite Hc2, Hc1. lia.
Qed.

Lemma runs_try_passed {A} (body : M A) (handles : exn -> bool)
      (handler : exn -> M A) (i i1 : list string) (o e : string) (c : N)
      (x : exn) :
  runs f0 body i i1 o e c (Raise x) -> handles x = false ->
  runs f0 (try_except body handles handler) i i1 o e c (Raise x).
Proof.
  intros Hm Hh w Hf Hq Hi.
  destruct (Hm w Hf Hq Hi) as (w1 & E1 & H).
  exists w1. unfold try_except. now rewrite E1, Hh.
Qed.

(** A primitive that succeeds. *)
Lemma runs_prim {A} (v : world -> A) (g : world -> world) (i : list string)
      (o e : string) (c : N) (a : A) :
  (forall w, fs (g w) = fs w) -> (forall w, stdin (g w) = stdin w) ->
  (forall w, sigint (g w) = sigint w) ->
  (forall w, stdout_all (g w) = stdout_all w ++ o) ->
  (forall w, err (g w) = err w ++ e) ->
  (forall w, clock (g w) = (clock w + c)%N) ->
  (forall w, fs w = f0 -> v w = a) ->
  runs f0 (tick ;; fun w => (Ok (v w), g w)) i i o e c (Ok a).
Proof.
  intros Hfs Hin Hsig Hout Herr Hclk Hv w Hf Hq Hi.
  exists (g w). unfold bind. rewrite (tick_quiet w Hq), (Hv w Hf).
  unfold quiet. rewrite Hfs, Hin, Hsig.
  repeat split; auto.
Qed.

Lemma runs_stdout_write (s : string) (i : list string) :
  runs f0 (stdout_write s) i i s "" 0 (Ok tt).
Proof.
  unfold stdout_write.
  apply (runs_prim (fun _ => tt)
           (fun w => set_stdout (out_flushed w) (out_pending w ++ s) w));
    try reflexivity; intros w; cbn.
  - unfold stdout_all; cbn. now rewrite append_assoc.
  - now rewrite append_nil_r.
  - now rewrite N.add_0_r.
Qed.

Lemma runs_stdout_flush (i : list string) :
  runs f0 stdout_flush i i "" "" 0 (Ok tt).
Proof.
  unfold stdout_flush.
  apply (runs_prim (fun _ => tt)
           (fun w => set_stdout (out_flushed w ++ out_pending w) "" w));
    try reflexivity; intros w; cbn.
  - now rewrite append_nil_r.
  - now rewrite N.add_0_r.
Qed.

Lemma runs_print (s : string) (i : list string) :
  runs f0 (print s) i i (s ++ LF) "" 0 (Ok tt).
Proof. apply runs_stdout_write. Qed.

Lemma runs_eprint (s : string) (i : list string) :
  runs f0 (eprint s) i i "" (s ++ LF) 0 (Ok tt).
Proof.
  unfold eprint.
  apply (runs_prim (fun _ => tt) (fun w => set_err (err w ++ s ++ LF) w));
    try reflexivity; intros w; cbn.
  - unfold stdout_all; cbn. now rewrite append_nil_r.
  - now rewrite N.add_0_r.
Qed.

Lemma runs_sleep (ms : N) (i : list string) :
  runs f0 (sleep ms) i i "" "" ms (Ok tt).
Proof.
  unfold sleep.
  apply (runs_prim (fun _ => tt) (fun w => set_clock (clock w + ms)%N w));
    try reflexivity; intros w; cbn.
  - unfold stdout_all; cbn. now rewrite append_nil_r.
  - now rewrite append_nil_r.
Qed.

Lemma runs_isfile (path : string) (i : list string) :
  runs f0 (isfile path) i i "" "" 0 (Ok (regular f0 path)).
Proof.
  unfold isfile.
  apply (runs_prim (fun w => regular (fs w) path) (fun w => w));
    try reflexivity; intros w.
  - now rewrite append_nil_r.
  - now rewrite append_nil_r.
  - now rewrite N.add_0_r.
  - now intros ->.
Qed.

Lemma runs_is_dir (path : string) (i : list string) :
  runs f0 (is_dir path) i i "" "" 0
       (Ok match f0 path with Some (Dir _) => true | _ => false end).
Proof.
  unfold is_dir.
  apply (runs_prim (fun w => match fs w path with
                             | Some (Dir _) => true
                             | _ => false
                             end) (fun w => w));
    try reflexivity; intros w.
  - now rewrite append_nil_r.
  - now rewrite append_nil_r.
  - now rewrite N.add_0_r.
  - now intros ->.
Qed.

Lemma runs_glob (dir ext : string) (i : list string) :
  runs f0 (glob dir ext) i i "" "" 0 (Ok (glob_list f0 dir ext)).
Proof.
  unfold glob.
  apply (runs_prim
           (fun w => match fs w dir with
                     | Some (Dir names) =>
                         map (path_join dir) (filter (ends_with ext) names)
                     | _ => []
                     end) (fun w => w));
    try reflexivity; intros w.
  - now rewrite append_nil_r.
  - now rewrite append_nil_r.
  - now rewrite N.add_0_r.
  - now intros ->.
Qed.

Lemma runs_read_bytes (path : string) (i : list string) :
  runs f0 (read_bytes path) i i "" "" 0
       match f0 path with
       | None => Raise (FileNotFoundError path)
       | Some (Dir _) => Raise (IsADirectoryError path)
       | Some (File false _) => Raise (PermissionError path)
       | Some (File true data) => Ok data
       | Some (Special data) => Ok data
       end.
Proof.
  intros w Hf Hq Hi. exists w. unfold read_bytes, bind.
  rewrite (tick_quiet w Hq), Hf, !append_nil_r, N.add_0_r.
  destruct (f0 path) as [[[|] data|names|sdata]|]; now repeat split.
Qed.

(** [input()] followed by nothing that uses the line. *)
Lemma runs_wait (i : list string) :
  runs f0 (_ <- input ;; ret tt) i (tl i) "" "" 0 (wait_outcome i).
Proof.
  intros w Hf Hq Hi. unfold input, bind, ret.
  rewrite (tick_quiet w Hq), Hi.
  destruct i as [|l ls]; cbn [tl wait_outcome].
  - eexists. split; [reflexivity|]. cbn.
    rewrite !append_nil_r, N.add_0_r. now repeat split.
  - eexists. split; [reflexivity|]. cbn.
    rewrite !append_nil_r, N.add_0_r. now repeat split.
Qed.

Lemma runs_for_each {X} (l : list X) (body : X -> M unit) (i : list string)
      (text : X -> string) (e : string) (c : N) :
  (forall x, In x l -> runs f0 (body x) i i (text x) e c (Ok tt)) ->
  runs f0 (for_each l body) i i (fold_right append "" (map text l))
       (str_mul e (List.length l)) (c * N.of_nat (List.length l)) (Ok tt).
Proof.
  induction l as [|x l IH]; intros H.
  - cbn [for_each List.length map fold_right str_mul].
    rewrite N.mul_0_r. apply runs_ret.
  - cbn [for_each List.length map fold_right str_mul].
    eapply runs_eq.
    + eapply runs_bind; [apply H; now left|].
      apply IH. intros y Hy. apply H. now right.
    + reflexivity.
    + reflexivity.
    + lia.
Qed.

Lemma runs_write_flush (s : string) (i : list string) :
  runs f0 (stdout_write s ;; stdout_flush) i i s "" 0 (Ok tt).
Proof.
  eapply runs_eq.
  - eapply runs_bind; [apply runs_stdout_write | apply runs_stdout_flush].
  - apply append_nil_r.
  - reflexivity.
  - reflexivity.
Qed.

Lemma runs_clear_screen (i : list string) :
  runs f0 clear_screen i i (ESC ++ "[2J" ++ ESC ++ "[H") "" 0 (Ok tt).
Proof. apply runs_write_flush. Qed.

Lemma runs_move_cursor (row col : Z) (i : list string) :
  runs f0 (move_cursor row col) i i (cursor_sequence row col) "" 0 (Ok tt).
Proof. apply runs_write_flush. Qed.

Lemma runs_display_image (path : string) (o : options) (i : list string) :
  displayable f0 path ->
  runs f0 (display_image path o) i i (display_text f0 path o)
       (display_err f0 path) 0 (Ok tt).
Proof.
  intros Hd. unfold display_image, display_text, display_err.
  pose proof (runs_isfile path i) as Hi.
  pose proof (runs_read_bytes path i) as Hr.
  unfold regular in *. unfold displayable in Hd.
  destruct (f0 path) as [[[|] data|names|sdata]|] eqn:Hf.
  - eapply runs_eq.
    + eapply runs_bind; [exact Hi|]. cbn [negb].
      eapply runs_bind; [exact Hr | apply runs_write_flush].
    + reflexivity.
    + reflexivity.
    + reflexivity.
  - now destruct (Hd data).
  - eapply runs_eq.
    + eapply runs_bind; [exact Hi|]. cbn [negb]. apply runs_eprint.
    + reflexivity.
    + cbn [append]. now rewrite ?append_assoc.
    + reflexivity.
  - eapply runs_eq.
    + eapply runs_bind; [exact Hi|]. cbn [negb]. apply runs_eprint.
    + reflexivity.
    + cbn [append]. now rewrite ?append_assoc.
    + reflexivity.
  - eapply runs_eq.
    + eapply runs_bind; [exact Hi|]. cbn [negb]. apply runs_eprint.
    + reflexivity.
    + cbn [append]. now rewrite ?append_assoc.
    + reflexivity.
Qed.

Lemma runs_display_image_unreadable (path : string) (o : options)
      (data : list byte) (i : list string) :
  f0 path = Some (File false data) ->
  runs f0 (display_image path o) i i "" "" 0 (Raise (PermissionError path)).
Proof.
  intros Hf. unfold display_image.
  pose proof (runs_read_bytes path i) as Hr. rewrite Hf in Hr.
  eapply runs_eq.
  - eapply runs_bind; [apply runs_isfile|].
    unfold regular. rewrite Hf. cbn [negb].
    apply runs_bind_raise. exact Hr.
  - reflexivity.
  - reflexivity.
  - reflexivity.
Qed.

Lemma runs_find_sample (dir : string) (i : list string) :
  runs f0 (find_sample dir) i i "" "" 0 (Ok (sample_of f0 dir)).
Proof.
  unfold find_sample, sample_of.
  pose proof (runs_glob dir ".jpg" i) as Hj.
  destruct (glob_list f0 dir ".jpg") as [|j js].
  - eapply runs_eq.
    + eapply runs_bind; [exact Hj|]. cbn iota.
      eapply runs_bind; [apply runs_glob | apply runs_ret].
    + reflexivity.
    + reflexivity.
    + reflexivity.
  - eapply runs_eq.
    + eapply runs_bind; [exact Hj|]. cbn iota. apply runs_ret.
    + reflexivity.
    + reflexivity.
    + reflexivity.
Qed.

Lemma runs_find_images (dir : string) (i : list string) :
  runs f0 (find_images dir) i i "" "" 0 (Ok (images_of f0 dir)).
Proof.
  unfold find_images, images_of.
  eapply runs_eq.
  - eapply runs_bind; [apply runs_glob|].
    eapply runs_bind; [apply runs_glob | apply runs_ret].
  - reflexivity.
  - reflexivity.
  - reflexivity.
Qed.

End Runs.

(** ** The phases, run without interrupt *)

Ltac runs_step :=
  first [ apply runs_print | apply runs_clear_screen | apply runs_move_cursor
        | apply runs_sleep | apply runs_wait | apply runs_find_sample
        | apply runs_find_images | apply runs_ret | apply runs_eprint
        | apply runs_display_image; assumption ].

Ltac runs_chain :=
  repeat first [ runs_step | eapply runs_bind; [runs_step|] ].

Section Phases.
Variable f0 : filesystem.
Variable dir : string.

Lemma demo_basic_runs (img : string) (i : list string) :
  sample_of f0 dir = Some img -> displayable f0 img ->
  exists out,
    runs f0 (demo_basic dir) i (tl i) out (str_mul (display_err f0 img) 4) 0
         (wait_outcome i).
Proof.
  intros Hs Hd. eexists. unfold demo_basic.
  eapply runs_eq.
  - runs_chain. rewrite Hs. runs_chain.
  - reflexivity.
  - cbn [append str_mul]. now rewrite ?append_nil_r.
  - reflexivity.
Qed.

Lemma demo_alignment_runs (img : string) (i : list string) :
  sample_of f0 dir = Some img -> displayable f0 img ->
  exists out,
    runs f0 (demo_alignment dir) i (tl i) out
         (str_mul (display_err f0 img) 3) 0 (wait_outcome i).
Proof.
  intros Hs Hd. eexists. unfold demo_alignment.
  eapply runs_eq.
  - runs_chain. rewrite Hs. runs_chain.
  - reflexivity.
  - cbn [append str_mul]. now rewrite ?append_nil_r.
  - reflexivity.
Qed.

Lemma demo_z_index_runs (img1 img2 : string) (more i : list string) :
  images_of f0 dir = img1 :: img2 :: more ->
  displayable f0 img1 -> displayable f0 img2 ->
  exists out,
    runs f0 (demo_z_index dir) i (tl i) out
         (display_err f0 img1 ++ display_err f0 img2) 500 (wait_outcome i).
Proof.
  intros Hs Hd1 Hd2. eexists. unfold demo_z_index.
  eapply runs_eq.
  - runs_chain. rewrite Hs. runs_chain.
  - reflexivity.
  - cbn [append]. now rewrite ?append_nil_r.
  - reflexivity.
Qed.

Lemma demo_z_index_skips (i : list string) :
  (List.length (images_of f0 dir) < 2)%nat ->
  exists out,
    runs f0 (demo_z_index dir) i i out "" 0 (Ok tt)
    /\ is_suffix ("Need at least 2 images for the z-index demo." ++ LF) out.
Proof.
  intros Hs. eexists. unfold demo_z_index. split.
  - eapply runs_eq.
    + runs_chain.
      destruct (images_of f0 dir) as [|a [|b l]];
        [apply runs_print | apply runs_print | cbn in Hs; lia].
    + reflexivity.
    + reflexivity.
    + reflexivity.
  - repeat first [apply is_suffix_refl | apply is_suffix_app].
Qed.

Lemma animation_frame_runs (img : string) (x : Z) (i : list string) :
  displayable f0 img ->
  runs f0 (animation_frame img x) i i (frame_text f0 img x)
       (display_err f0 img) 100 (Ok tt).
Proof.
  intros Hd. unfold animation_frame, frame_text.
  eapply runs_eq.
  - runs_chain.
  - now rewrite append_nil_r.
  - cbn [append]. now rewrite append_nil_r.
  - reflexivity.
Qed.

Lemma animation_guarded_runs (img : string) (i : list string) :
  displayable f0 img ->
  runs f0 (animation_guarded img) i i
       (setup_text f0 img ++ frames_text f0 img (range 100))
       (str_mul (display_err f0 img) 101) 10000 (Ok tt).
Proof.
  intros Hd. unfold animation_guarded, animation_body, animation_setup,
    animation_loop, setup_text, frames_text.
  apply runs_try_ok.
  eapply runs_eq.
  - eapply runs_bind.
    + eapply runs_bind; [apply runs_move_cursor|].
      now apply runs_display_image.
    + apply runs_for_each. intros x _. now apply animation_frame_runs.
  - reflexivity.
  - rewrite range_length. reflexivity.
  - rewrite range_length. reflexivity.
Qed.

Lemma demo_animation_runs (img : string) (i : list string) :
  sample_of f0 dir = Some img -> displayable f0 img ->
  exists out,
    runs f0 (demo_animation dir) i (tl i) out
         (str_mul (display_err f0 img) 101) 10000 (wait_outcome i).
Proof.
  intros Hs Hd. eexists. unfold demo_animation, animation_tail.
  eapply runs_eq.
  - runs_chain. rewrite Hs.
    eapply runs_bind; [now apply animation_guarded_runs|]. runs_chain.
  - reflexivity.
  - cbn [append]. now rewrite ?append_nil_r.
  - reflexivity.
Qed.

(** A phase that finds no sample says so and does not wait. *)
Lemma demo_phase_without_sample (i : list string) :
  sample_of f0 dir = None ->
  exists o1 o2 o3,
    runs f0 (demo_basic dir) i i o1 "" 0 (Ok tt)
    /\ runs f0 (demo_alignment dir) i i o2 "" 0 (Ok tt)
    /\ runs f0 (demo_animation dir) i i o3 "" 0 (Ok tt)
    /\ is_suffix ("No sample images found in the directory." ++ LF) o1
    /\ is_suffix ("No sample images found in the directory." ++ LF) o2
    /\ is_suffix ("No sample images found in the directory." ++ LF) o3.
Proof.
  intros Hs. eexists _, _, _.
  split; [|split; [|split]].
  - unfold demo_basic. eapply runs_eq;
      [runs_chain; rewrite Hs; runs_chain | reflexivity..].
  - unfold demo_alignment. eapply runs_eq;
      [runs_chain; rewrite Hs; runs_chain | reflexivity..].
  - unfold demo_animation. eapply runs_eq;
      [runs_chain; rewrite Hs; runs_chain | reflexivity..].
  - repeat split; repeat first [apply is_suffix_refl | apply is_suffix_app].
Qed.

End Phases.

(** ** Whole runs of the demo *)

Lemma sample_of_images (f : filesystem) (dir : string) :
  sample_of f dir = hd_error (images_of f dir).
Proof.
  unfold sample_of, images_of. now destruct (glob_list f dir ".jpg").
Qed.

Lemma runs_world {A} (f : filesystem) (m : M A) (i i' : list string)
      (o e : string) (c : N) (r : outcome A) (w : world) :
  runs f m i i' o e c r -> fs w = f -> quiet w -> stdin w = i ->
  exists w',
    m w = (r, w') /\ fs w' = f /\ quiet w' /\ stdin w' = i'
    /\ stdout_all w' = stdout_all w ++ o /\ err w' = err w ++ e
    /\ clock w' = (clock w + c)%N.
Proof. intros H Hf Hq Hi. exact (H w Hf Hq Hi). Qed.

Ltac phases_chain :=
  repeat first [ eapply runs_bind; [eassumption|]
               | apply runs_bind_raise; eassumption ].

Ltac main_prelude Hdir Himgs :=
  unfold main;
  eapply runs_bind; [apply runs_is_dir|]; rewrite Hdir; cbn [negb];
  eapply runs_bind; [apply runs_ret|];
  eapply runs_bind; [apply runs_find_images|]; rewrite Himgs;
  cbn [List.length Nat.eqb];
  eapply runs_bind; [apply runs_ret|];
  eapply runs_bind; [apply runs_print|].

Section WholeRuns.
Variable f : filesystem.
Variable dir : string.
Variable names : list string.
Hypothesis Hdir : f dir = Some (Dir names).

Lemma main_two_images_runs (img1 img2 l1 l2 l3 l4 : string)
      (more rest : list string) :
  images_of f dir = img1 :: img2 :: more ->
  displayable f img1 -> displayable f img2 ->
  exists out,
    runs f (main dir) (l1 :: l2 :: l3 :: l4 :: rest) rest out
         (str_mul (display_err f img1) 8 ++ display_err f img2
          ++ str_mul (display_err f img1) 101)
         10500 (Ok tt)
    /\ is_suffix complete_text out.
Proof.
  intros Himgs Hd1 Hd2.
  assert (Hs : sample_of f dir = Some img1)
    by (now rewrite sample_of_images, Himgs).
  destruct (demo_basic_runs f dir img1 (l1 :: l2 :: l3 :: l4 :: rest) Hs Hd1)
    as [o1 H1].
  destruct (demo_alignment_runs f dir img1 (l2 :: l3 :: l4 :: rest) Hs Hd1)
    as [o2 H2].
  destruct (demo_z_index_runs f dir img1 img2 more (l3 :: l4 :: rest)
              Himgs Hd1 Hd2) as [o3 H3].
  destruct (demo_animation_runs f dir img1 (l4 :: rest) Hs Hd1) as [o4 H4].
  cbn [tl wait_outcome] in H1, H2, H3, H4.
  eexists. split.
  - eapply runs_eq.
    + main_prelude Hdir Himgs.
      apply runs_try_ok. unfold demo_phases. phases_chain. runs_chain.
    + reflexivity.
    + set (E1 := display_err f img1). set (E2 := display_err f img2).
      replace (str_mul E1 8) with (str_mul E1 4 ++ str_mul E1 3 ++ E1)
        by (cbn [str_mul]; now rewrite ?append_assoc, ?append_nil_r).
      cbn [append]. now rewrite ?append_nil_r, ?append_assoc.
    + reflexivity.
  - repeat first [exact (is_suffix_refl complete_text) | apply is_suffix_app].
Qed.

Lemma main_one_image_runs (img l1 l2 l3 : string) (rest : list string) :
  images_of f dir = [img] -> displayable f img ->
  exists out,
    runs f (main dir) (l1 :: l2 :: l3 :: rest) rest out
         (str_mul (display_err f img) 108) 10000 (Ok tt)
    /\ is_suffix complete_text out
    /\ occurs "Need at least 2 images for the z-index demo." out.
Proof.
  intros Himgs Hd.
  assert (Hs : sample_of f dir = Some img)
    by (now rewrite sample_of_images, Himgs).
  destruct (demo_basic_runs f dir img (l1 :: l2 :: l3 :: rest) Hs Hd)
    as [o1 H1].
  destruct (demo_alignment_runs f dir img (l2 :: l3 :: rest) Hs Hd)
    as [o2 H2].
  destruct (demo_z_index_skips f dir (l3 :: rest)) as (o3 & H3 & S3).
  { rewrite Himgs. cbn. lia. }
  destruct (demo_animation_runs f dir img (l3 :: rest) Hs Hd) as [o4 H4].
  cbn [tl wait_outcome] in H1, H2, H4.
  eexists. split; [|split].
  - eapply runs_eq.
    + main_prelude Hdir Himgs.
      apply runs_try_ok. unfold demo_phases. phases_chain. runs_chain.
    + reflexivity.
    + set (E := display_err f img).
      replace (str_mul E 108) with (str_mul E 4 ++ str_mul E 3 ++ str_mul E 101)
        by (now rewrite <- !str_mul_add).
      cbn [append]. now rewrite ?append_nil_r, ?append_assoc.
    + reflexivity.
  - repeat first [exact (is_suffix_refl complete_text) | apply is_suffix_app].
  - repeat first [ apply occurs_app_l; exact (occurs_suffix _ _ _ S3)
                 | apply occurs_app_r ].
Qed.

Ltac demo_handler :=
  eapply runs_try_caught;
  [ unfold demo_phases; phases_chain
  | reflexivity
  | eapply runs_bind; [apply runs_eprint | apply runs_raise] ].

Lemma main_no_input_runs (img : string) (more : list string) :
  images_of f dir = img :: more -> displayable f img ->
  exists out,
    runs f (main dir) [] [] out
         (str_mul (display_err f img) 4
          ++ "Demo error: EOF when reading a line" ++ LF)
         0 (Raise (SystemExit 1)).
Proof.
  intros Himgs Hd.
  assert (Hs : sample_of f dir = Some img)
    by (now rewrite sample_of_images, Himgs).
  destruct (demo_basic_runs f dir img [] Hs Hd) as [o1 H1].
  cbn [tl wait_outcome] in H1.
  eexists. eapply runs_eq.
  - main_prelude Hdir Himgs. demo_handler.
  - reflexivity.
  - cbn [append str_exn]. now rewrite ?append_nil_r, ?append_assoc.
  - reflexivity.
Qed.

Lemma main_short_input_runs (img1 img2 : string) (more i : list string) :
  images_of f dir = img1 :: img2 :: more ->
  displayable f img1 -> displayable f img2 ->
  (List.length i < 4)%nat ->
  exists out e c,
    runs f (main dir) i [] out e c (Raise (SystemExit 1))
    /\ is_suffix ("Demo error: EOF when reading a line" ++ LF) e.
Proof.
  intros Himgs Hd1 Hd2 Hlen.
  assert (Hs : sample_of f dir = Some img1)
    by (now rewrite sample_of_images, Himgs).
  destruct i as [|l1 [|l2 [|l3 [|l4 rest]]]]; [| | | |cbn in Hlen; lia].
  - destruct (demo_basic_runs f dir img1 [] Hs Hd1) as [o1 H1].
    cbn [tl wait_outcome] in H1.
    eexists _, _, _. split.
    + main_prelude Hdir Himgs. demo_handler.
    + repeat first [apply is_suffix_refl | apply is_suffix_app].
  - destruct (demo_basic_runs f dir img1 [l1] Hs Hd1) as [o1 H1].
    destruct (demo_alignment_runs f dir img1 [] Hs Hd1) as [o2 H2].
    cbn [tl wait_outcome] in H1, H2.
    eexists _, _, _. split.
    + main_prelude Hdir Himgs. demo_handler.
    + repeat first [apply is_suffix_refl | apply is_suffix_app].
  - destruct (demo_basic_runs f dir img1 [l1; l2] Hs Hd1) as [o1 H1].
    destruct (demo_alignment_runs f dir img1 [l2] Hs Hd1) as [o2 H2].
    destruct (demo_z_index_runs f dir img1 img2 more [] Himgs Hd1 Hd2)
      as [o3 H3].
    cbn [tl wait_outcome] in H1, H2, H3.
    eexists _, _, _. split.
    + main_prelude Hdir Himgs. demo_handler.
    + repeat first [apply is_suffix_refl | apply is_suffix_app].
  - destruct (demo_basic_runs f dir img1 [l1; l2; l3] Hs Hd1) as [o1 H1].
    destruct (demo_alignment_runs f dir img1 [l2; l3] Hs Hd1) as [o2 H2].
    destruct (demo_z_index_runs f dir img1 img2 more [l3] Himgs Hd1 Hd2)
      as [o3 H3].
    destruct (demo_animation_runs f dir img1 [] Hs Hd1) as [o4 H4].
    cbn [tl wait_outcome] in H1, H2, H3, H4.
    eexists _, _, _. split.
    + main_prelude Hdir Himgs. demo_handler.
    + repeat first [apply is_suffix_refl | apply is_suffix_app].
Qed.

Lemma main_unreadable_runs (img : string) (data : list byte)
      (more i : list string) :
  images_of f dir = img :: more -> f img = Some (File false data) ->
  exists out,
    runs f (main dir) i i out
         ("Demo error: " ++ str_exn (PermissionError img) ++ LF)
         0 (Raise (SystemExit 1)).
Proof.
  intros Himgs Hf.
  assert (Hs : sample_of f dir = Some img)
    by (now rewrite sample_of_images, Himgs).
  assert (H1 : exists o1, runs f (demo_basic dir) i i o1 "" 0
                               (Raise (PermissionError img))).
  { eexists. unfold demo_basic. eapply runs_eq.
    - runs_chain. rewrite Hs.
      eapply runs_bind; [apply runs_print|].
      apply runs_bind_raise.
      exact (runs_display_image_unreadable f img [] data i Hf).
    - reflexivity.
    - reflexivity.
    - reflexivity. }
  destruct H1 as [o1 H1].
  eexists. eapply runs_eq.
  - main_prelude Hdir Himgs. demo_handler.
  - reflexivity.
  - cbn [append]. now rewrite ?append_nil_r, ?append_assoc.
  - reflexivity.
Qed.

End WholeRuns.

(** X14. With at least two images, each readable or missing, four lines
    on standard input and no interrupt, the demo runs to its end: it reads
    exactly four lines, sleeps 10.5 seconds in all, ends its output with
    the closing banner and exits with code 0.  The first image is shown 109
    times and the second once; each that is missing costs one error
    line. *)
Theorem main_completes
        (f : filesystem) (dir : string) (names more rest : list string)
        (img1 img2 l1 l2 l3 l4 : string) (w : world) :
  f dir = Some (Dir names) ->
  images_of f dir = img1 :: img2 :: more ->
  displayable f img1 -> displayable f img2 ->
  fs w = f -> quiet w -> stdin w = l1 :: l2 :: l3 :: l4 :: rest ->
  exists w',
    main dir w = (Ok tt, w')
    /\ stdin w' = rest
    /\ err w' = err w ++ str_mul (display_err f img1) 8 ++ display_err f img2
                ++ str_mul (display_err f img1) 101
    /\ clock w' = (clock w + 10500)%N
    /\ is_suffix complete_text (stdout_all w')
    /\ exit_code (run_script (main dir) w) = 0%Z.
Proof.
  intros Hdir Himgs Hd1 Hd2 Hf Hq Hi.
  destruct (main_two_images_runs f dir names Hdir img1 img2 l1 l2 l3 l4 more
              rest Himgs Hd1 Hd2) as (out & Hr & Hs).
  destruct (runs_world _ _ _ _ _ _ _ _ w Hr Hf Hq Hi)
    as (w' & E & _ & _ & Hi' & Ho & He & Hc).
  exists w'. repeat split; try assumption.
  - rewrite Ho. now apply is_suffix_app.
  - unfold run_script. now rewrite E.
Qed.

Lemma main_completes_witness :
  sample_fs "imgs" = Some (Dir ["a.jpg"; "b.txt"; "c.png"])
  /\ images_of sample_fs "imgs" = ["imgs/a.jpg"; "imgs/c.png"]
  /\ displayable sample_fs "imgs/a.jpg" /\ displayable sample_fs "imgs/c.png"
  /\ exit_code (run_script (main "imgs")
                  (initial_world sample_fs ["1"; "2"; "3"; "4"; "5"] None))
     = 0%Z.
Proof.
  assert (D1 : displayable sample_fs "imgs/a.jpg") by (intros d; discriminate).
  assert (D2 : displayable sample_fs "imgs/c.png") by (intros d; discriminate).
  split; [reflexivity|]. split; [reflexivity|]. split; [exact D1|].
  split; [exact D2|].
  destruct (main_completes sample_fs "imgs" ["a.jpg"; "b.txt"; "c.png"] []
              ["5"] "imgs/a.jpg" "imgs/c.png" "1" "2" "3" "4"
              (initial_world sample_fs ["1"; "2"; "3"; "4"; "5"] None)
              eq_refl eq_refl D1 D2 eq_refl eq_refl eq_refl)
    as (w' & _ & _ & _ & _ & _ & H).
  exact H.
Defined.

(** X15. With a single image the z-index phase only says that it needs
    two, without waiting for Enter and without its half second of sleep:
    three lines of input are enough, the run sleeps 10 seconds and the one
    image is shown 108 times. *)
Theorem main_single_image
        (f : filesystem) (dir : string) (names rest : list string)
        (img l1 l2 l3 : string) (w : world) :
  f dir = Some (Dir names) -> images_of f dir = [img] -> displayable f img ->
  fs w = f -> quiet w -> stdin w = l1 :: l2 :: l3 :: rest ->
  exists w' out,
    main dir w = (Ok tt, w')
    /\ stdin w' = rest
    /\ err w' = err w ++ str_mul (display_err f img) 108
    /\ clock w' = (clock w + 10000)%N
    /\ stdout_all w' = stdout_all w ++ out
    /\ occurs "Need at least 2 images for the z-index demo." out
    /\ is_suffix complete_text out.
Proof.
  intros Hdir Himgs Hd Hf Hq Hi.
  destruct (main_one_image_runs f dir names Hdir img l1 l2 l3 rest Himgs Hd)
    as (out & Hr & Hs & Hn).
  destruct (runs_world _ _ _ _ _ _ _ _ w Hr Hf Hq Hi)
    as (w' & E & _ & _ & Hi' & Ho & He & Hc).
  exists w', out. now repeat split.
Qed.

Lemma main_single_image_witness :
  other_fs "solo" = Some (Dir ["a.png"])
  /\ images_of other_fs "solo" = ["solo/a.png"]
  /\ displayable other_fs "solo/a.png"
  /\ exists w',
       main "solo" (initial_world other_fs ["1"; "2"; "3"] None) = (Ok tt, w')
       /\ stdin w' = [].
Proof.
  assert (D : displayable other_fs "solo/a.png") by (intros d; discriminate).
  split; [reflexivity|]. split; [reflexivity|]. split; [exact D|].
  destruct (main_single_image other_fs "solo" ["a.png"] [] "solo/a.png"
              "1" "2" "3" (initial_world other_fs ["1"; "2"; "3"] None)
              eq_refl eq_refl D eq_refl eq_refl eq_refl)
    as (w' & out & E & Hi & _).
  exists w'. now split.
Defined.

(** X16. When standard input ends before the demo does, [input] raises
    [EOFError], which [main] reports as a demo error before it exits with
    code 1: with no line at all, after the four displays of the first
    phase; with fewer than four lines and two images, at the first prompt
    left without a line. *)
Theorem main_end_of_input
        (f : filesystem) (dir : string) (names more : list string)
        (img : string) (w : world) :
  f dir = Some (Dir names) -> images_of f dir = img :: more ->
  displayable f img -> fs w = f -> quiet w ->
  (stdin w = [] ->
   exists w',
     main dir w = (Raise (SystemExit 1), w')
     /\ err w' = err w ++ str_mul (display_err f img) 4
                 ++ "Demo error: EOF when reading a line" ++ LF
     /\ clock w' = clock w
     /\ run_script (main dir) w
        = mkProcess 1 (stdout_all w') (err w') None)
  /\ (forall img2 more',
        more = img2 :: more' -> displayable f img2 ->
        (List.length (stdin w) < 4)%nat ->
        exists w',
          main dir w = (Raise (SystemExit 1), w')
          /\ stdin w' = []
          /\ is_suffix ("Demo error: EOF when reading a line" ++ LF) (err w')
          /\ exit_code (run_script (main dir) w) = 1%Z).
Proof.
  intros Hdir Himgs Hd Hf Hq. split.
  - intros Hi.
    destruct (main_no_input_runs f dir names Hdir img more Himgs Hd)
      as (out & Hr).
    destruct (runs_world _ _ _ _ _ _ _ _ w Hr Hf Hq Hi)
      as (w' & E & _ & _ & Hi' & Ho & He & Hc).
    exists w'. repeat split; try assumption.
    + rewrite Hc. apply N.add_0_r.
    + unfold run_script. now rewrite E.
  - intros img2 more' -> Hd2 Hlen.
    destruct (main_short_input_runs f dir names Hdir img img2 more' (stdin w)
                Himgs Hd Hd2 Hlen) as (out & e & c & Hr & Hs).
    destruct (runs_world _ _ _ _ _ _ _ _ w Hr Hf Hq eq_refl)
      as (w' & E & _ & _ & Hi' & Ho & He & Hc).
    exists w'. repeat split; try assumption.
    + rewrite He. now apply is_suffix_app.
    + unfold run_script. now rewrite E.
Qed.

Lemma main_end_of_input_witness :
  sample_fs "imgs" = Some (Dir ["a.jpg"; "b.txt"; "c.png"])
  /\ images_of sample_fs "imgs" = ["imgs/a.jpg"; "imgs/c.png"]
  /\ displayable sample_fs "imgs/a.jpg"
  /\ exit_code (run_script (main "imgs") (initial_world sample_fs [] None))
     = 1%Z
  /\ stderr (run_script (main "imgs") (initial_world sample_fs [] None))
     = "Demo error: EOF when reading a line" ++ LF.
Proof.
  assert (D : displayable sample_fs "imgs/a.jpg") by (intros d; discriminate).
  split; [reflexivity|]. split; [reflexivity|]. split; [exact D|].
  destruct (main_end_of_input sample_fs "imgs" ["a.jpg"; "b.txt"; "c.png"]
              ["imgs/c.png"] "imgs/a.jpg" (initial_world sample_fs [] None)
              eq_refl eq_refl D eq_refl eq_refl) as [H _].
  destruct (H eq_refl) as (w' & _ & He & _ & Hp).
  rewrite Hp. cbn [exit_code stderr]. split; [reflexivity|].
  rewrite He. reflexivity.
Defined.

(** X17. When the first image exists but cannot be read, the first
    display of the first phase raises [PermissionError]; [main] reports it
    as a demo error and exits with code 1, without reading a line and
    without sleeping.  The path is shown as [repr] shows a plain one. *)
Theorem main_unreadable_image
        (f : filesystem) (dir : string) (names more : list string)
        (img : string) (data : list byte) (w : world) :
  f dir = Some (Dir names) -> images_of f dir = img :: more ->
  f img = Some (File false data) -> plain_path img = true ->
  fs w = f -> quiet w ->
  exists w',
    main dir w = (Raise (SystemExit 1), w')
    /\ stdin w' = stdin w
    /\ err w' = err w ++ "Demo error: [Errno 13] Permission denied: '"
                ++ img ++ "'" ++ LF
    /\ clock w' = clock w
    /\ exit_code (run_script (main dir) w) = 1%Z.
Proof.
  intros Hdir Himgs Himg _ Hf Hq.
  destruct (main_unreadable_runs f dir names Hdir img data more (stdin w)
              Himgs Himg) as (out & Hr).
  destruct (runs_world _ _ _ _ _ _ _ _ w Hr Hf Hq eq_refl)
    as (w' & E & _ & _ & Hi' & Ho & He & Hc).
  exists w'. repeat split; try assumption.
  - rewrite He. unfold str_exn. cbn [append].
    now rewrite ?append_assoc.
  - rewrite Hc. apply N.add_0_r.
  - unfold run_script. now rewrite E.
Qed.

Lemma main_unreadable_image_witness :
  other_fs "locked" = Some (Dir ["x.jpg"])
  /\ images_of other_fs "locked" = ["locked/x.jpg"]
  /\ other_fs "locked/x.jpg" = Some (File false ten_bytes)
  /\ plain_path "locked/x.jpg" = true
  /\ exit_code (run_script (main "locked")
                  (initial_world other_fs ["1"] None)) = 1%Z.
Proof.
  split; [reflexivity|]. split; [reflexivity|]. split; [reflexivity|].
  split; [reflexivity|].
  destruct (main_unreadable_image other_fs "locked" ["x.jpg"] []
              "locked/x.jpg" ten_bytes (initial_world other_fs ["1"] None)
              eq_refl eq_refl eq_refl eq_refl eq_refl eq_refl)
    as (w' & _ & _ & _ & _ & H).
  exact H.
Defined.

(** ** The animation phase, further *)

(** X18. Left alone, the animation draws the background and all 100
    frames, sleeps 10 seconds, reads nothing, prints no stopped message,
    and writes one error line for each of the 101 displays when the image
    is missing. *)
Theorem animation_uninterrupted
        (f : filesystem) (img : string) (w : world) :
  displayable f img -> fs w = f -> quiet w ->
  exists w',
    animation_guarded img w = (Ok tt, w')
    /\ stdout_all w'
       = stdout_all w ++ setup_text f img ++ frames_text f img (range 100)
    /\ err w' = err w ++ str_mul (display_err f img) 101
    /\ clock w' = (clock w + 10000)%N
    /\ stdin w' = stdin w /\ quiet w'.
Proof.
  intros Hd Hf Hq.
  destruct (runs_world _ _ _ _ _ _ _ _ w
              (animation_guarded_runs f img (stdin w) Hd) Hf Hq eq_refl)
    as (w' & E & _ & Hq' & Hi' & Ho & He & Hc).
  exists w'. now repeat split.
Qed.

Lemma animation_uninterrupted_witness :
  displayable sample_fs "imgs/c.png"
  /\ exists w',
       animation_guarded "imgs/c.png" (initial_world sample_fs [] None)
       = (Ok tt, w')
       /\ err w' = str_mul ("Error: Image file not found: imgs/c.png" ++ LF)
                           101.
Proof.
  assert (D : displayable sample_fs "imgs/c.png") by (intros d; discriminate).
  split; [exact D|].
  destruct (animation_uninterrupted sample_fs "imgs/c.png"
              (initial_world sample_fs [] None) D eq_refl eq_refl)
    as (w' & E & _ & He & _).
  exists w'. split; [exact E | exact He].
Defined.

Lemma steps_animation_body (f : filesystem) (img : string) :
  displayable f img ->
  steps f (animation_body img)
        (setup_cost f img + frame_cost f img * 100)
        (setup_text f img ++ frames_text f img (range 100)) tt.
Proof.
  intros Hd. unfold animation_body.
  apply (steps_bind _ _ _ _ _ _ _ tt);
    [now apply steps_animation_setup | now apply steps_animation_loop].
Qed.

Lemma animation_guarded_interrupt
      (f : filesystem) (img : string) (w : world) (k : nat) :
  displayable f img -> fs w = f -> sigint w = Some k ->
  let total := (setup_cost f img + frame_cost f img * 100)%nat in
  let full := setup_text f img ++ frames_text f img (range 100) in
  exists w' p,
    animation_guarded img w = (Ok tt, w')
    /\ stdin w' = stdin w
    /\ if Nat.ltb k total
       then stdout_all w'
            = stdout_all w ++ p ++ LF ++ "Animation stopped." ++ LF
            /\ is_prefix p full /\ sigint w' = None
       else stdout_all w' = stdout_all w ++ full
            /\ sigint w' = Some (k - total)%nat.
Proof.
  intros Hd Hf Hs total full.
  destruct (steps_animation_body f img Hd w Hf)
    as (w1 & p & Hf1 & Hi1 & Ho1 & H1).
  rewrite Hs in H1. fold total in H1.
  unfold animation_guarded, try_except.
  destruct (Nat.ltb k total).
  - destruct H1 as (E & Hs1 & Hp). rewrite E. cbn [is_KeyboardInterrupt].
    rewrite (print_quiet _ w1 Hs1).
    eexists _, p. split; [reflexivity|]. split; [exact Hi1|].
    split; [|split; [exact Hp | exact Hs1]].
    unfold stdout_all at 1. cbn [out_flushed out_pending set_stdout].
    rewrite <- append_assoc. fold (stdout_all w1). rewrite Ho1.
    now rewrite !append_assoc.
  - destruct H1 as (E & Hs1 & ->). rewrite E.
    exists w1, full. now repeat split.
Qed.

(** X19. The [try] statement covers the background as well as the loop: an
    interrupt delivered at any of its operations is caught and answered
    with the stopped message; one that is due later leaves the statement
    with everything drawn and is still pending. *)
Theorem animation_try_block
        (f : filesystem) (img : string) (w : world) (k : nat) :
  displayable f img -> fs w = f -> sigint w = Some k ->
  let total := (setup_cost f img + frame_cost f img * 100)%nat in
  let full := setup_text f img ++ frames_text f img (range 100) in
  exists w' p,
    animation_guarded img w = (Ok tt, w')
    /\ stdin w' = stdin w
    /\ if Nat.ltb k total
       then stdout_all w'
            = stdout_all w ++ p ++ LF ++ "Animation stopped." ++ LF
            /\ is_prefix p full /\ sigint w' = None
       else stdout_all w' = stdout_all w ++ full
            /\ sigint w' = Some (k - total)%nat.
Proof. exact (animation_guarded_interrupt f img w k). Qed.

Lemma animation_try_block_witness :
  displayable sample_fs "imgs/a.jpg"
  /\ exists w',
       animation_guarded "imgs/a.jpg"
         (initial_world sample_fs [] (Some 3%nat)) = (Ok tt, w')
       /\ sigint w' = None.
Proof.
  assert (D : displayable sample_fs "imgs/a.jpg") by (intros d; discriminate).
  split; [exact D|].
  destruct (animation_try_block sample_fs "imgs/a.jpg"
              (initial_world sample_fs [] (Some 3%nat)) 3 D eq_refl eq_refl)
    as (w' & p & E & _ & H).
  exists w'. split; [exact E|].
  cbn in H. now destruct H as (_ & _ & H).
Defined.

Lemma animation_tail_interrupted (w : world) (j : nat) :
  sigint w = Some j -> (j < 4)%nat ->
  exists w', animation_tail w = (Raise KeyboardInterrupt, w').
Proof.
  destruct w as [f i o p e s c]. cbn [sigint]. intros -> Hj.
  unfold animation_tail, move_cursor, print, input, stdout_write,
    stdout_flush, bind, tick.
  destruct j as [|[|[|[|j]]]]; [| | | |lia]; cbn; eexists; reflexivity.
Qed.

(** The first operations of a computation, with an interrupt due. *)
Lemma steps_then {A B} (f : filesystem) (m : M A) (c : nat) (s : string)
      (a : A) (rest : A -> M B) (w : world) (k : nat) :
  steps f m c s a -> fs w = f -> sigint w = Some k ->
  if Nat.ltb k c
  then exists w', bind m rest w = (Raise KeyboardInterrupt, w')
  else exists w1, bind m rest w = rest a w1 /\ fs w1 = f
                  /\ sigint w1 = Some (k - c)%nat.
Proof.
  intros H Hf Hs.
  destruct (H w Hf) as (w1 & p & Hf1 & Hi1 & Ho1 & H1).
  rewrite Hs in H1. unfold bind.
  destruct (Nat.ltb k c).
  - destruct H1 as (-> & _). now exists w1.
  - destruct H1 as (-> & Hs1 & _). now exists w1.
Qed.

Lemma steps_print (f : filesystem) (s : string) :
  steps f (print s) 1 (s ++ LF) tt.
Proof. apply steps_stdout_write. Qed.

Lemma steps_clear_screen (f : filesystem) :
  steps f clear_screen 2 (ESC ++ "[2J" ++ ESC ++ "[H") tt.
Proof. apply steps_write_flush. Qed.

(** The banner of a phase: the screen is cleared and [n] lines are
    printed before anything else. *)
Lemma banner_interrupted {B} (f : filesystem) (lines : list string)
      (rest : M B) (w : world) (k : nat) :
  fs w = f -> sigint w = Some k -> (k < List.length lines)%nat ->
  exists w',
    fold_right (fun l (r : M B) => print l ;; r) rest lines w
    = (Raise KeyboardInterrupt, w').
Proof.
  revert w k. induction lines as [|l lines IH]; intros w k Hf Hs Hk.
  - cbn in Hk. lia.
  - cbn [fold_right].
    pose proof (steps_then f (print l) 1 _ tt
                  (fun _ => fold_right (fun l (r : M B) => print l ;; r)
                                       rest lines)
                  w k (steps_print f l) Hf Hs) as H.
    destruct k as [|k]; cbn [Nat.ltb Nat.leb] in H.
    + exact H.
    + destruct H as (w1 & E & Hf1 & Hs1). rewrite E.
      apply (IH w1 (S k - 1)%nat Hf1 Hs1). cbn in Hk |- *. lia.
Qed.

(** X20. Outside its [try] statement the animation phase does not catch
    the interrupt: delivered while the banner is written or while the
    phase waits for Enter, it leaves the phase as [KeyboardInterrupt];
    and [main]'s [except Exception] clause lets it through. *)
Theorem animation_interrupt_outside_try
        (f : filesystem) (dir img : string) (w : world) (k : nat) :
  displayable f img -> fs w = f -> sigint w = Some k ->
  let total := (setup_cost f img + frame_cost f img * 100)%nat in
  ((k < 6)%nat ->
   exists w', demo_animation dir w = (Raise KeyboardInterrupt, w'))
  /\ ((total <= k < total + 4)%nat ->
      exists w',
        (animation_guarded img ;; animation_tail) w
        = (Raise KeyboardInterrupt, w'))
  /\ (forall (m : M unit) (h : exn -> M unit) w0 w1,
        m w0 = (Raise KeyboardInterrupt, w1) ->
        try_except m is_Exception h w0 = (Raise KeyboardInterrupt, w1)).
Proof.
  intros Hd Hf Hs total. split; [|split].
  - intros Hk. unfold demo_animation.
    pose proof (steps_then f clear_screen 2 _ tt
                  (fun _ =>
                     fold_right (fun l (r : M unit) => print l ;; r)
                       (sample_img <- find_sample dir ;;
                        match sample_img with
                        | None => print "No sample images found in the directory."
                        | Some img0 => animation_guarded img0 ;; animation_tail
                        end)
                       ["GT Terminal Advanced Image Demo - Animation";
                        "=========================================";
                        "Press Ctrl+C to stop the animation"; ""])
                  w k (steps_clear_screen f) Hf Hs) as H.
    cbn [fold_right] in H.
    destruct (Nat.ltb k 2) eqn:L.
    + exact H.
    + destruct H as (w1 & E & Hf1 & Hs1). rewrite E.
      apply Nat.ltb_ge in L.
      apply (banner_interrupted f
               ["GT Terminal Advanced Image Demo - Animation";
                "=========================================";
                "Press Ctrl+C to stop the animation"; ""] _ w1 (k - 2)%nat
               Hf1 Hs1).
      cbn. lia.
  - intros Hk.
    destruct (animation_guarded_interrupt f img w k Hd Hf Hs)
      as (w1 & p & E & _ & H).
    fold total in H.
    replace (Nat.ltb k total) with false in H
      by (symmetry; apply Nat.ltb_ge; lia).
    destruct H as (_ & Hs1).
    unfold bind. rewrite E.
    apply (animation_tail_interrupted w1 (k - total)%nat Hs1). lia.
  - intros m h w0 w1 E. unfold try_except. now rewrite E.
Qed.

Lemma animation_interrupt_outside_try_witness :
  displayable sample_fs "imgs/a.jpg"
  /\ exists w',
       demo_animation "imgs" (initial_world sample_fs [""] (Some 4%nat))
       = (Raise KeyboardInterrupt, w').
Proof.
  assert (D : displayable sample_fs "imgs/a.jpg") by (intros d; discriminate).
  split; [exact D|].
  destruct (animation_interrupt_outside_try sample_fs "imgs" "imgs/a.jpg"
              (initial_world sample_fs [""] (Some 4%nat)) 4 D eq_refl eq_refl)
    as (H & _).
  apply H. lia.
Defined.

(** ** The images of a directory *)

Lemma glob_quiet (dir ext : string) (w : world) :
  quiet w -> glob dir ext w = (Ok (glob_list (fs w) dir ext), w).
Proof. intros Hq. unfold glob, bind. now rewrite tick_quiet. Qed.

Lemma path_join_inj (dir a b : string) :
  path_join dir a = path_join dir b -> a = b.
Proof.
  unfold path_join.
  destruct (String.eqb dir "."); [trivial|].
  destruct (ends_with "/" dir); intros E.
  - now apply append_inv_head in E.
  - apply append_inv_head in E. now injection E.
Qed.

Lemma ends_with_jpg_not_png (n : string) :
  ends_with ".jpg" n = true -> ends_with ".png" n = false.
Proof.
  unfold ends_with. cbn [String.length].
  destruct (Nat.leb 4 (String.length n)); [|discriminate]. cbn [andb].
  destruct (String.eqb_spec (substring (String.length n - 4) 4 n) ".jpg")
    as [->|]; [reflexivity | discriminate].
Qed.

(** X21. The sample image of the basic, alignment and animation phases is
    the first image of the list the z-index phase and [main] use, in
    which the [*.jpg] entries come before the [*.png] ones; there is a
    sample exactly when [main] counts at least one image, and distinct
    entries give distinct images. *)
Theorem sample_is_first_image (dir : string) (w : world) :
  quiet w ->
  find_images dir w = (Ok (images_of (fs w) dir), w)
  /\ find_sample dir w = (Ok (hd_error (images_of (fs w) dir)), w)
  /\ (hd_error (images_of (fs w) dir) = None
      <-> List.length (images_of (fs w) dir) = 0%nat)
  /\ (forall names, fs w dir = Some (Dir names) -> NoDup names ->
                    NoDup (images_of (fs w) dir)
                    /\ (List.length (images_of (fs w) dir)
                        <= List.length names)%nat).
Proof.
  intros Hq. split; [|split; [|split]].
  - unfold find_images, bind, ret. now rewrite !glob_quiet.
  - rewrite <- sample_of_images. unfold find_sample, sample_of, bind, ret.
    rewrite glob_quiet by exact Hq.
    destruct (glob_list (fs w) dir ".jpg"); [|reflexivity].
    now rewrite glob_quiet.
  - destruct (images_of (fs w) dir); cbn; split; intros H;
      reflexivity || discriminate H.
  - intros names Hn Hnd. unfold images_of, glob_list. rewrite Hn. split.
    + apply NoDup_app.
      * apply NoDup_map_NoDup_ForallPairs; [|now apply NoDup_filter].
        intros a b _ _. apply path_join_inj.
      * apply NoDup_map_NoDup_ForallPairs; [|now apply NoDup_filter].
        intros a b _ _. apply path_join_inj.
      * intros p Hj Hp.
        apply in_map_iff in Hj as (a & <- & Ha).
        apply in_map_iff in Hp as (b & E & Hb).
        apply path_join_inj in E. subst b.
        apply filter_In in Ha as [_ Ha]. apply filter_In in Hb as [_ Hb].
        rewrite (ends_with_jpg_not_png a Ha) in Hb. discriminate Hb.
    + rewrite length_app, !length_map.
      assert (L : forall l : list string,
                 (List.length (filter (ends_with ".jpg") l)
                  + List.length (filter (ends_with ".png") l)
                  <= List.length l)%nat).
      { induction l as [|a l IH]; cbn; [lia|].
        destruct (ends_with ".jpg" a) eqn:Ej.
        - rewrite (ends_with_jpg_not_png a Ej). cbn. lia.
        - destruct (ends_with ".png" a); cbn; lia. }
      apply L.
Qed.

Lemma sample_is_first_image_witness :
  quiet (initial_world sample_fs [] None)
  /\ find_sample "imgs" (initial_world sample_fs [] None)
     = (Ok (Some "imgs/a.jpg"), initial_world sample_fs [] None).
Proof.
  split; [reflexivity|].
  exact (proj1 (proj2 (sample_is_first_image "imgs"
                         (initial_world sample_fs [] None) eq_refl))).
Defined.

(** X22. Called on a directory without images, a phase writes its banner
    and, as its last line, that it found no sample (the z-index phase:
    that it needs two images); it returns without waiting for Enter and
    without an error. *)
Theorem phases_without_images (dir : string) (w : world) :
  quiet w -> images_of (fs w) dir = [] ->
  says_and_returns (demo_basic dir)
    "No sample images found in the directory." w
  /\ says_and_returns (demo_alignment dir)
       "No sample images found in the directory." w
  /\ says_and_returns (demo_animation dir)
       "No sample images found in the directory." w
  /\ says_and_returns (demo_z_index dir)
       "Need at least 2 images for the z-index demo." w.
Proof.
  intros Hq Himgs.
  assert (Hs : sample_of (fs w) dir = None)
    by (now rewrite sample_of_images, Himgs).
  destruct (demo_phase_without_sample (fs w) dir (stdin w) Hs)
    as (o1 & o2 & o3 & H1 & H2 & H3 & S1 & S2 & S3).
  destruct (demo_z_index_skips (fs w) dir (stdin w)) as (o4 & H4 & S4).
  { rewrite Himgs. cbn. lia. }
  assert (G : forall (m : M unit) o msg,
             runs (fs w) m (stdin w) (stdin w) o "" 0 (Ok tt) ->
             is_suffix (msg ++ LF) o -> says_and_returns m msg w).
  { intros m o msg Hr Hsuf.
    destruct (runs_world _ _ _ _ _ _ _ _ w Hr eq_refl Hq eq_refl)
      as (w' & E & _ & _ & Hi' & Ho & He & Hc).
    exists w'. repeat split; try assumption.
    - now rewrite He, append_nil_r.
    - now rewrite Hc, N.add_0_r.
    - rewrite Ho. now apply is_suffix_app. }
  repeat split; eapply G; eassumption.
Qed.

Lemma phases_without_images_witness :
  quiet (initial_world sample_fs ["1"] None)
  /\ images_of (fs (initial_world sample_fs ["1"] None)) "empty" = []
  /\ says_and_returns (demo_basic "empty")
       "No sample images found in the directory."
       (initial_world sample_fs ["1"] None).
Proof.
  split; [reflexivity|]. split; [reflexivity|].
  exact (proj1 (phases_without_images "empty"
                  (initial_world sample_fs ["1"] None) eq_refl eq_refl)).
Defined.

(** X23. An empty file is no error: both scripts emit the sequence with an
    empty payload, the colon directly followed by the bell; and only an
    empty file has an empty payload. *)
Theorem empty_file_sequence
        (argv : list string) (path : string) (o : options) (w : world) :
  quiet w -> nth_error argv 1 = Some path -> fs w path = Some (File true []) ->
  display_image path o w
  = (Ok tt,
     set_stdout (stdout_all w ++ String "027" "]1337;File="
                 ++ String.concat ";" (build_opts o) ++ ":" ++ String "007" "")
                "" w)
  /\ load_image argv w
     = (Ok tt,
        set_stdout (stdout_all w ++ String "027" "]1337;File=inline=1:"
                    ++ String "007" (String "010" "")) "" w)
  /\ (forall data, Base64.b64encode data = "" -> data = []).
Proof.
  intros Hq Hn Hf. split; [|split].
  - rewrite (display_image_quiet path o [] w Hq Hf). reflexivity.
  - rewrite (load_image_file argv path [] w Hq Hn Hf). reflexivity.
  - intros data E. now apply (Base64Facts.b64encode_inj data []).
Qed.

Lemma empty_file_sequence_witness :
  quiet (initial_world sample_fs [] None)
  /\ nth_error ["load_image.py"; "imgs/b.txt"] 1 = Some "imgs/b.txt"
  /\ fs (initial_world sample_fs [] None) "imgs/b.txt" = Some (File true [])
  /\ stdout (run_script (load_image ["load_image.py"; "imgs/b.txt"])
                        (initial_world sample_fs [] None))
     = String "027" "]1337;File=inline=1:" ++ String "007" (String "010" "").
Proof.
  split; [reflexivity|]. split; [reflexivity|]. split; [reflexivity|].
  destruct (empty_file_sequence ["load_image.py"; "imgs/b.txt"] "imgs/b.txt"
              [] (initial_world sample_fs [] None) eq_refl eq_refl eq_refl)
    as (_ & H & _).
  unfold run_script. rewrite H. reflexivity.
Defined.
